(** * CompareCompression.py: a shallow embedding and its properties

    The script benchmarks six GDAL compression variants of one GeoTIFF:
    it writes six copies into a scratch directory, measures write time,
    file size and read time, deletes the copies, and prints a table.

    The embedding follows the script top to bottom:
    - [Path]: the [os.path] string functions the script calls (POSIX flavour);
    - [Py]: a state-and-exception monad over a world made of a file system,
      a clock and the trace of external calls and [print]s;
    - [Os]: the [os] calls ([getsize], [remove], [makedirs], [removedirs]);
    - [Script]: the module-level code and the six functions of the script;
    - [Examples]: concrete engines and file systems to run the script on.

    What the script does not decide -- the raster engine, the platform's
    permissions, the size formatter, the table renderer -- is a record
    [Py.env] every function takes. Floats are not modelled: a duration
    is the difference of two integer clock readings.

    The properties come after, by subject: the layout of the scratch
    directory ([Layout]), start-up ([Startup], [Launch]), the three
    measuring stages ([Loops], [Slots], [Pipeline], [Rows], [Encoder],
    [Sizes], [Table]), teardown ([Teardown], [Ancestors]), the order of
    the stages ([Order]) and the recursion bounds of the model ([Fuel]);
    then what each function may change in the file system ([Frames]),
    what the stages do when they succeed ([Outcomes]), their edge cases
    and the verdict of [main] ([Verdict]), and a whole run in which
    nothing fails ([CleanRun]). *)

From stdpp Require Import base strings list gmap option pretty.
From Stdlib Require Import Ascii ZArith Lia.

Local Open Scope string_scope.
Local Open Scope list_scope.

(** stdpp freezes string concatenation under [simpl]; the path lemmas
    below compute with it. *)
#[local] Arguments String.append !_ _ / : simpl nomatch.

(** ** [os.path] on POSIX strings *)

Module Path.

(** [sep = '/'] *)
Definition sep : ascii := "/"%char.

Definition is_sep (c : ascii) : bool := Ascii.eqb c sep.

(** [sep in p] *)
Fixpoint has_sep (p : string) : bool :=
  match p with
  | EmptyString => false
  | String c r => is_sep c || has_sep r
  end.

(** [b.startswith(sep)] *)
Definition startswith_sep (b : string) : bool :=
  match b with
  | String c _ => is_sep c
  | EmptyString => false
  end.

(** [path.endswith(sep)] *)
Fixpoint endswith_sep (p : string) : bool :=
  match p with
  | EmptyString => false
  | String c EmptyString => is_sep c
  | String _ r => endswith_sep r
  end.

(** [p.rstrip(sep)] *)
Fixpoint rstrip_sep (p : string) : string :=
  match p with
  | EmptyString => EmptyString
  | String c r =>
      match rstrip_sep r with
      | EmptyString => if is_sep c then EmptyString else String c EmptyString
      | r' => String c r'
      end
  end.

(** [posixpath.split]: with [i = p.rfind(sep) + 1], the pair
    [(p[:i], p[i:])] before the head is stripped. *)
Fixpoint cut (p : string) : string * string :=
  match p with
  | EmptyString => (EmptyString, EmptyString)
  | String c r =>
      if has_sep r then (String c (cut r).1, (cut r).2)
      else if is_sep c then (String c EmptyString, r)
      else (EmptyString, String c r)
  end.

(** [if head and head != sep*len(head): head = head.rstrip(sep)] *)
Definition strip_head (head : string) : string :=
  match rstrip_sep head with
  | EmptyString => head
  | stripped => stripped
  end.

(** [os.path.split(p)] *)
Definition split (p : string) : string * string :=
  (strip_head (cut p).1, (cut p).2).

(** [os.path.dirname(p)] *)
Definition dirname (p : string) : string := strip_head (cut p).1.

(** [os.path.basename(p)] *)
Definition basename (p : string) : string := (cut p).2.

(** [os.path.join(a, b)] with one trailing component. *)
Definition join (a b : string) : string :=
  if startswith_sep b then b
  else if bool_decide (a = EmptyString) || endswith_sep a then a +:+ b
  else a +:+ String sep b.

End Path.

(** ** Facts about [os.path] *)

Module PathFacts.
Import Path.

Lemma append_assoc (a b c : string) : (a +:+ b) +:+ c = a +:+ (b +:+ c).
Proof. induction a as [|x a IH]; simpl; [done | by rewrite IH]. Qed.

Lemma append_inv_head (a b c : string) : a +:+ b = a +:+ c → b = c.
Proof. induction a as [|x a IH]; simpl; [done | intros [= H]; auto]. Qed.

Lemma has_sep_app (a b : string) :
  has_sep (a +:+ b) = has_sep a || has_sep b.
Proof.
  induction a as [|x a IH]; simpl; [done |].
  by rewrite IH, orb_assoc.
Qed.

Lemma cut_no_sep (n : string) : has_sep n = false → cut n = ("", n).
Proof.
  destruct n as [|c n]; simpl; [done |].
  intros [Hc Hn]%orb_false_iff. by rewrite Hn, Hc.
Qed.

(** Cutting after an explicit separator. *)
Lemma cut_app_sep (d n : string) :
  has_sep n = false → cut (d +:+ String sep n) = (d +:+ String sep "", n).
Proof.
  intros Hn. induction d as [|c d IH]; simpl.
  - by rewrite Hn.
  - rewrite has_sep_app. simpl. rewrite orb_true_r. by rewrite IH.
Qed.

Lemma endswith_sep_snoc (d : string) :
  endswith_sep d = true → ∃ d', d = d' +:+ String sep "".
Proof.
  induction d as [|c d IH]; simpl; [done |].
  destruct d as [|c' d].
  - intros Hc. exists "". simpl. f_equal.
    unfold is_sep in Hc. by apply Ascii.eqb_eq in Hc.
  - intros H. destruct (IH H) as [d' Hd']. exists (String c d').
    simpl. by rewrite Hd'.
Qed.

Lemma rstrip_sep_snoc (d : string) :
  rstrip_sep (d +:+ String sep "") = rstrip_sep d.
Proof. induction d as [|c d IH]; simpl; [done | by rewrite IH]. Qed.

Lemma rstrip_sep_idem (d : string) :
  rstrip_sep (rstrip_sep d) = rstrip_sep d.
Proof.
  induction d as [|c d IH]; simpl; [done |].
  destruct (rstrip_sep d) as [|c' r'] eqn:E.
  - destruct (is_sep c) eqn:Hc; simpl; [done | by rewrite Hc].
  - simpl in *. by rewrite IH.
Qed.

Lemma rstrip_sep_not_endswith (d : string) :
  endswith_sep d = false → rstrip_sep d = d.
Proof.
  induction d as [|c d IH]; simpl; [done |].
  destruct d as [|c' d].
  - simpl. by intros ->.
  - intros H. rewrite (IH H). done.
Qed.

(** What [dirname] returns is either made of separators only (possibly
    empty) or does not end with a separator. *)
Lemma strip_head_shape (h : string) :
  rstrip_sep (strip_head h) = "" ∨ rstrip_sep (strip_head h) = strip_head h.
Proof.
  unfold strip_head. destruct (rstrip_sep h) as [|c r] eqn:E.
  - by left.
  - right. rewrite <- E. apply rstrip_sep_idem.
Qed.

Lemma strip_head_fixed (d : string) :
  rstrip_sep d = "" ∨ rstrip_sep d = d → strip_head d = d.
Proof. unfold strip_head. intros [-> | ->]; [done | by destruct d]. Qed.

(** [join] followed by [cut] gives back the component, and a head that
    strips to the directory. *)
Lemma cut_join (d n : string) :
  has_sep n = false → n ≠ "" →
  (rstrip_sep d = "" ∨ rstrip_sep d = d) →
  (cut (join d n)).2 = n ∧ strip_head (cut (join d n)).1 = d.
Proof.
  intros Hn Hne Hd. unfold join.
  assert (startswith_sep n = false) as ->.
  { destruct n as [|c n]; [done |]. simpl in *.
    by apply orb_false_iff in Hn as [-> _]. }
  case_bool_decide as Hempty.
  - subst d. simpl. rewrite (cut_no_sep _ Hn). done.
  - simpl. destruct (endswith_sep d) eqn:He.
    + destruct (endswith_sep_snoc _ He) as [d' ->].
      rewrite append_assoc. simpl. rewrite (cut_app_sep _ _ Hn). simpl.
      split; [done |]. by apply strip_head_fixed.
    + rewrite (cut_app_sep _ _ Hn). simpl. split; [done |].
      unfold strip_head. rewrite rstrip_sep_snoc.
      rewrite (rstrip_sep_not_endswith _ He). by destruct d.
Qed.

Lemma dirname_join (d n : string) :
  has_sep n = false → n ≠ "" →
  (rstrip_sep d = "" ∨ rstrip_sep d = d) →
  dirname (join d n) = d.
Proof. intros. unfold dirname. by apply cut_join. Qed.

Lemma basename_join (d n : string) :
  has_sep n = false → n ≠ "" →
  (rstrip_sep d = "" ∨ rstrip_sep d = d) →
  basename (join d n) = n.
Proof. intros. unfold basename. by apply cut_join. Qed.

Lemma split_join (d n : string) :
  has_sep n = false → n ≠ "" →
  (rstrip_sep d = "" ∨ rstrip_sep d = d) →
  split (join d n) = (d, n).
Proof.
  intros Hn Hne Hd. unfold split.
  destruct (cut_join d n Hn Hne Hd) as [-> ->]. done.
Qed.

(** A joined path never ends with a separator when the component does
    not, so it is a fixed point of [rstrip]. *)
Lemma endswith_sep_app (a n : string) :
  n ≠ "" → endswith_sep (a +:+ n) = endswith_sep n.
Proof.
  intros Hne. induction a as [|c a IH]; simpl; [done |].
  rewrite IH. destruct (a +:+ n) eqn:E; [|done].
  destruct a; simpl in E; [congruence | done].
Qed.

Lemma join_shape (d n : string) :
  has_sep n = false → n ≠ "" → endswith_sep n = false →
  rstrip_sep (join d n) = join d n.
Proof.
  intros Hn Hne He. apply rstrip_sep_not_endswith. unfold join.
  assert (startswith_sep n = false) as ->.
  { destruct n as [|c n]; [done |]. simpl in *.
    by apply orb_false_iff in Hn as [-> _]. }
  destruct (_ || _).
  - by rewrite endswith_sep_app.
  - rewrite endswith_sep_app; [|done]. simpl. by destruct n.
Qed.

Lemma join_inj (d n m : string) :
  startswith_sep n = false → startswith_sep m = false →
  join d n = join d m → n = m.
Proof.
  unfold join. intros -> ->. destruct (_ || _); intros H.
  - by apply append_inv_head in H.
  - apply append_inv_head in H. by injection H.
Qed.

End PathFacts.

(** ** Python values, exceptions and the world the script runs in *)

Module Py.

(** The exceptions the script can meet. Every one is an [Exception];
    all but [EngineError] are [OSError]s. *)
Inductive exn :=
| FileNotFoundError (path : string)
| FileExistsError (path : string)
| NotADirectoryError (path : string)
| IsADirectoryError (path : string)
| PermissionError (path : string)
| DirectoryNotEmpty (path : string)
| DeviceBusy (path : string)
| EngineError (msg : string).

(** [isinstance(e, OSError)] *)
Definition is_OSError (e : exn) : bool :=
  match e with EngineError _ => false | _ => true end.

Inductive result (A : Type) :=
| Ok (a : A)
| Raise (e : exn).
Arguments Ok {A} a.
Arguments Raise {A} e.

(** A table cell: a [str] (the sentinel [''] or a formatted size) or the
    float [time.time() - start_time], kept as a number of clock ticks. *)
Inductive cell :=
| Str (s : string)
| Seconds (t : Z).

Definition sentinel : cell := Str "".

(** What a stage hands back: a list of cells, or [None]. *)
Definition row : Type := option (list cell).

Inductive message :=
| Begin (fn : string)
| Success (fn : string)
| Fail (fn : string) (err : exn)
| Rendered (table : string)
| RunTime (t : Z).

(** External calls and [print]s, in the order they happen. *)
Inductive event :=
| Print (m : message)
| GdalOpen (path : string)
| GdalTranslate (dest src options : string)
| GdalReadAsArray (path : string)
| Getsize (path : string)
| Remove (path : string)
| Rmdir (path : string)
| Mkdir (path : string)
| DataFrame (data : list row) (index columns : list string).

Inductive node :=
| File (st_size : N)
| Dir.

Record world := World {
  fs : gmap string node;
  now : Z;
  trace : list event
}.

Inductive syscall := Stat | Unlink | SysRmdir | SysMkdir.

(** What the script does not decide: the raster engine, the platform's
    permissions, the size formatter and the table renderer. *)
Record env := Env {
  abspath : string → string;
  (** [gdal.Open(path)] raising (it returns otherwise). *)
  gdal_open : string → gmap string node → option exn;
  (** [gdal.Translate(dest, src, options)]: size of the file written and
      time taken, or the exception raised. *)
  gdal_translate : string → string → string → gmap string node → result (N * Z);
  (** [gdal.Open(tif).ReadAsArray()]: time taken, or the exception. *)
  gdal_read : string → gmap string node → result Z;
  os_denied : syscall → string → bool;
  dir_st_size : N;
  (** [hurry.filesize.size(n, system=si)] *)
  size_si : N → string;
  (** [str(pandas.DataFrame(data, index, columns))] *)
  pandas_frame : list row → list string → list string → result string
}.

(** Computations: they change the world and return or raise. What was
    done before an exception stays done. *)
Definition M (A : Type) : Type := world → result A * world.

Definition ret {A} (a : A) : M A := λ w, (Ok a, w).

Definition raise {A} (e : exn) : M A := λ w, (Raise e, w).

Definition bind {A B} (m : M A) (k : A → M B) : M B :=
  λ w, match m w with
       | (Ok a, w') => k a w'
       | (Raise e, w') => (Raise e, w')
       end.

(** [try: m  except Exception as err: h err] *)
Definition try_except {A} (m : M A) (h : exn → M A) : M A :=
  λ w, match m w with
       | (Ok a, w') => (Ok a, w')
       | (Raise e, w') => h e w'
       end.

(** [try: m  except OSError: h], other exceptions pass. *)
Definition try_except_OSError {A} (m : M A) (h : M A) : M A :=
  λ w, match m w with
       | (Ok a, w') => (Ok a, w')
       | (Raise e, w') => if is_OSError e then h w' else (Raise e, w')
       end.

Definition get_fs : M (gmap string node) := λ w, (Ok (fs w), w).

Definition put_fs (f : gmap string node) : M unit :=
  λ w, (Ok tt, World f (now w) (trace w)).

Definition emit (e : event) : M unit :=
  λ w, (Ok tt, World (fs w) (now w) (trace w ++ [e])).

(** The external call took [dt] ticks. *)
Definition elapse (dt : Z) : M unit :=
  λ w, (Ok tt, World (fs w) (now w + dt)%Z (trace w)).

(** [time.time()] *)
Definition time : M Z := λ w, (Ok (now w), w).

(** [print(...)] *)
Definition print (m : message) : M unit := emit (Print m).

(** [for x in xs: body], threading the loop's local variables. *)
Fixpoint for_each {A S} (xs : list A) (body : A → S → M S) (s : S) : M S :=
  match xs with
  | [] => ret s
  | x :: xs' => bind (body x s) (for_each xs' body)
  end.

Declare Scope py_scope.
Delimit Scope py_scope with py.
Notation "x <- m ;; k" := (bind m (λ x, k))
  (at level 100, m at next level, right associativity) : py_scope.
Notation "m ;; k" := (bind m (λ _, k))
  (at level 100, right associativity) : py_scope.

End Py.

(** ** The [os] calls of the script *)

Module Os.
Import Py.
Local Open Scope py_scope.

Section WithEnv.
Variable E : env.

(** [os.path.exists(p)] *)
Definition exists_ (p : string) : M bool :=
  f <- get_fs;; ret (bool_decide (is_Some (f !! p))).

(** [os.path.getsize(p)] *)
Definition getsize (p : string) : M N :=
  emit (Getsize p);;
  f <- get_fs;;
  if os_denied E Stat p then raise (PermissionError p)
  else match f !! p with
       | None => raise (FileNotFoundError p)
       | Some (File n) => ret n
       | Some Dir => ret (dir_st_size E)
       end.

(** [os.remove(p)] *)
Definition remove (p : string) : M unit :=
  emit (Remove p);;
  f <- get_fs;;
  if os_denied E Unlink p then raise (PermissionError p)
  else match f !! p with
       | None => raise (FileNotFoundError p)
       | Some (File _) => put_fs (delete p f)
       | Some Dir => raise (IsADirectoryError p)
       end.

(** A path made of separators only names the root. *)
Definition is_root (p : string) : bool :=
  bool_decide (p ≠ "" ∧ Path.rstrip_sep p = "").

(** No entry of the file system lies directly under [p]. *)
Definition is_empty_dir (p : string) (f : gmap string node) : bool :=
  bool_decide (map_Forall (λ k _, Path.dirname k ≠ p) f).

(** [os.rmdir(p)] *)
Definition rmdir (p : string) : M unit :=
  emit (Rmdir p);;
  f <- get_fs;;
  if os_denied E SysRmdir p then raise (PermissionError p)
  else match f !! p with
       | None => raise (FileNotFoundError p)
       | Some (File _) => raise (NotADirectoryError p)
       | Some Dir =>
           if is_root p then raise (DeviceBusy p)
           else if is_empty_dir p f then put_fs (delete p f)
           else raise (DirectoryNotEmpty p)
       end.

(** [os.mkdir(p)]: the parent must be a directory. A relative name
    with no directory part is created under the current directory. *)
Definition mkdir (p : string) : M unit :=
  emit (Mkdir p);;
  f <- get_fs;;
  if os_denied E SysMkdir p then raise (PermissionError p)
  else if bool_decide (is_Some (f !! p)) then raise (FileExistsError p)
  else
    let parent := Path.dirname p in
    if bool_decide (parent = "") then put_fs (<[p := Dir]> f)
    else match f !! parent with
         | None => raise (FileNotFoundError p)
         | Some (File _) => raise (NotADirectoryError p)
         | Some Dir => put_fs (<[p := Dir]> f)
         end.

(** [if not tail: head, tail = path.split(head)] *)
Definition split_again (ht : string * string) : string * string :=
  if bool_decide (ht.2 = "") then Path.split ht.1 else ht.

(** [os.makedirs(name)] with [exist_ok=False]. The recursion is on
    the head of the name, which is shorter than the name; [fuel]
    bounds its depth. *)
Fixpoint makedirs_rec (fuel : nat) (name : string) : M unit :=
  let '(head, tail) := split_again (Path.split name) in
  ex <- exists_ head;;
  if bool_decide (head ≠ "") && bool_decide (tail ≠ "") && negb ex then
    match fuel with
    | O => mkdir name
    | S fuel' =>
        try_except (makedirs_rec fuel' head)
          (λ e, match e with
                | FileExistsError _ => ret tt
                | _ => raise e
                end);;
        if bool_decide (tail = ".") then ret tt
        else mkdir name
    end
  else mkdir name.

Definition makedirs (name : string) : M unit :=
  makedirs_rec (String.length name) name.

(** The [while head and tail] loop of [os.removedirs]. *)
Fixpoint removedirs_loop (fuel : nat) (head tail : string) : M unit :=
  if bool_decide (head ≠ "") && bool_decide (tail ≠ "") then
    match fuel with
    | O => ret tt
    | S fuel' =>
        removed <- try_except_OSError (rmdir head;; ret true) (ret false);;
        if removed : bool then
          let '(head', tail') := Path.split head in
          removedirs_loop fuel' head' tail'
        else ret tt
    end
  else ret tt.

(** [os.removedirs(name)] *)
Definition removedirs (name : string) : M unit :=
  rmdir name;;
  let '(head, tail) := split_again (Path.split name) in
  removedirs_loop (String.length name) head tail.

End WithEnv.
End Os.

(** ** The script *)

Module Script.
Import Py.
Local Open Scope py_scope.

(** The six local variables each stage declares, one per variant. *)
Record six := Six {
  v_uncompressed : cell;
  v_packbits : cell;
  v_deflate_1 : cell;
  v_deflate_2 : cell;
  v_lzw_1 : cell;
  v_lzw_2 : cell
}.

(** [x_uncompressed = ''; x_packbits = ''; ...] *)
Definition declared : six :=
  Six sentinel sentinel sentinel sentinel sentinel sentinel.

Definition set_uncompressed (c : cell) (s : six) : six :=
  Six c (v_packbits s) (v_deflate_1 s) (v_deflate_2 s) (v_lzw_1 s) (v_lzw_2 s).
Definition set_packbits (c : cell) (s : six) : six :=
  Six (v_uncompressed s) c (v_deflate_1 s) (v_deflate_2 s) (v_lzw_1 s) (v_lzw_2 s).
Definition set_deflate_1 (c : cell) (s : six) : six :=
  Six (v_uncompressed s) (v_packbits s) c (v_deflate_2 s) (v_lzw_1 s) (v_lzw_2 s).
Definition set_deflate_2 (c : cell) (s : six) : six :=
  Six (v_uncompressed s) (v_packbits s) (v_deflate_1 s) c (v_lzw_1 s) (v_lzw_2 s).
Definition set_lzw_1 (c : cell) (s : six) : six :=
  Six (v_uncompressed s) (v_packbits s) (v_deflate_1 s) (v_deflate_2 s) c (v_lzw_2 s).
Definition set_lzw_2 (c : cell) (s : six) : six :=
  Six (v_uncompressed s) (v_packbits s) (v_deflate_1 s) (v_deflate_2 s) (v_lzw_1 s) c.

(** [[x_uncompressed, x_packbits, x_deflate_1, x_deflate_2, x_lzw_1, x_lzw_2]] *)
Definition listed (s : six) : list cell :=
  [v_uncompressed s; v_packbits s; v_deflate_1 s; v_deflate_2 s;
   v_lzw_1 s; v_lzw_2 s].

(** [columns] and [rows] *)
Definition columns : list string :=
  ["Uncompressed"; "Packbits"; "Deflate pred=1";
   "Deflate pred=2"; "LZW pred=1"; "LZW pred=2"].
Definition rows : list string := ["Size"; "Write time"; "Read time"].

(** The [-co] option strings handed to [gdal.ParseCommandLine]. *)
Definition q : string := String (ascii_of_nat 34) "".
Definition co (kv : string) : string := " -co " +:+ q +:+ kv +:+ q.
Definition command_uncompressed : string :=
  "-of GTiff" +:+ co "BIGTIFF=IF_SAFE".
Definition command_packbits : string :=
  "-of GTiff" +:+ co "BIGTIFF=IF_SAFE" +:+ co "COMPRESS=PACKBITS"
    +:+ co "TILED=YES".
Definition command_deflate_1 : string :=
  "-of GTiff" +:+ co "BIGTIFF=IF_SAFE" +:+ co "COMPRESS=DEFLATE"
    +:+ co "PREDICTOR=1" +:+ co "TILED=YES".
Definition command_deflate_2 : string :=
  "-of GTiff" +:+ co "BIGTIFF=IF_SAFE" +:+ co "COMPRESS=DEFLATE"
    +:+ co "PREDICTOR=2" +:+ co "TILED=YES".
Definition command_lzw_1 : string :=
  "-of GTiff" +:+ co "BIGTIFF=IF_SAFE" +:+ co "COMPRESS=LZW"
    +:+ co "PREDICTOR=1" +:+ co "TILED=YES".
Definition command_lzw_2 : string :=
  "-of GTiff" +:+ co "BIGTIFF=IF_SAFE" +:+ co "COMPRESS=LZW"
    +:+ co "PREDICTOR=2" +:+ co "TILED=YES".

Section WithEnv.
Variable E : env.

(** [gdal.Open(path)], result dropped. *)
Definition gdal_Open (path : string) : M unit :=
  emit (GdalOpen path);;
  f <- get_fs;;
  match gdal_open E path f with
  | Some e => raise e
  | None => ret tt
  end.

(** [gdal.Translate(dest, src, options=gdal.TranslateOptions(
    gdal.ParseCommandLine(command)))] *)
Definition gdal_Translate (dest src command : string) : M unit :=
  emit (GdalTranslate dest src command);;
  f <- get_fs;;
  match gdal_translate E dest src command f with
  | Raise e => raise e
  | Ok (n, dt) => put_fs (<[dest := File n]> f);; elapse dt
  end.

(** [read_tif(tif)]: [gdal.Open(tif).ReadAsArray()] *)
Definition read_tif (tif : string) : M unit :=
  emit (GdalReadAsArray tif);;
  f <- get_fs;;
  match gdal_read E tif f with
  | Raise e => raise e
  | Ok dt => elapse dt
  end.

(** Module level: [src_img] is [os.path.abspath(sys.argv[1])]; the
    paths below are computed from it once. *)
Section WithSource.
Variable src_img : string.

Definition tmp_dir : string := Path.join (Path.dirname src_img) "tmp".
Definition uncompressed : string := Path.join tmp_dir "uncompressed.tif".
Definition packbits : string := Path.join tmp_dir "packbits.tif".
Definition deflate_1 : string := Path.join tmp_dir "deflate_1.tif".
Definition deflate_2 : string := Path.join tmp_dir "deflate_2.tif".
Definition lzw_1 : string := Path.join tmp_dir "lzw_1.tif".
Definition lzw_2 : string := Path.join tmp_dir "lzw_2.tif".

Definition files : list string :=
  [uncompressed; packbits; deflate_1; deflate_2; lzw_1; lzw_2].

(** [if not os.path.exists(tmp_dir): os.makedirs(tmp_dir)] *)
Definition prepare : M unit :=
  ex <- Os.exists_ tmp_dir;;
  if negb ex then Os.makedirs E tmp_dir else ret tt.

(** One pass of the loop of [generate_compressed_images]. *)
Definition encode_one (input_image file : string) (ws : six) : M six :=
  start_time <- time;;
  let dest_name := file in
  let src_ds := input_image in
  if decide (file = uncompressed) then
    gdal_Open src_ds;;
    gdal_Translate dest_name src_ds command_uncompressed;;
    t <- time;; ret (set_uncompressed (Seconds (t - start_time)) ws)
  else if decide (file = packbits) then
    gdal_Open src_ds;;
    gdal_Translate dest_name src_ds command_packbits;;
    t <- time;; ret (set_packbits (Seconds (t - start_time)) ws)
  else if decide (file = deflate_1) then
    gdal_Open src_ds;;
    gdal_Translate dest_name src_ds command_deflate_1;;
    t <- time;; ret (set_deflate_1 (Seconds (t - start_time)) ws)
  else if decide (file = deflate_2) then
    gdal_Open src_ds;;
    gdal_Translate dest_name src_ds command_deflate_2;;
    t <- time;; ret (set_deflate_2 (Seconds (t - start_time)) ws)
  else if decide (file = lzw_1) then
    gdal_Open src_ds;;
    gdal_Translate dest_name src_ds command_lzw_1;;
    t <- time;; ret (set_lzw_1 (Seconds (t - start_time)) ws)
  else if decide (file = lzw_2) then
    gdal_Open src_ds;;
    gdal_Translate dest_name src_ds command_lzw_2;;
    t <- time;; ret (set_lzw_2 (Seconds (t - start_time)) ws)
  else ret ws.

Definition generate_compressed_images
    (in_files : list string) (input_image : string) : M row :=
  try_except
    (print (Begin "generate_compressed_images");;
     ws <- for_each in_files (encode_one input_image) declared;;
     let output_write_speeds := listed ws in
     print (Success "generate_compressed_images");;
     ret (Some output_write_speeds))
    (λ err, print (Fail "generate_compressed_images" err);; ret None).

(** One pass of the loop of [calculate_file_size]. *)
Definition size_one (file : string) (ss : six) : M six :=
  if decide (file = uncompressed) then
    n <- Os.getsize E file;; ret (set_uncompressed (Str (size_si E n)) ss)
  else if decide (file = packbits) then
    n <- Os.getsize E file;; ret (set_packbits (Str (size_si E n)) ss)
  else if decide (file = deflate_1) then
    n <- Os.getsize E file;; ret (set_deflate_1 (Str (size_si E n)) ss)
  else if decide (file = deflate_2) then
    n <- Os.getsize E file;; ret (set_deflate_2 (Str (size_si E n)) ss)
  else if decide (file = lzw_1) then
    n <- Os.getsize E file;; ret (set_lzw_1 (Str (size_si E n)) ss)
  else if decide (file = lzw_2) then
    n <- Os.getsize E file;; ret (set_lzw_2 (Str (size_si E n)) ss)
  else ret ss.

Definition calculate_file_size (in_files : list string) : M row :=
  try_except
    (print (Begin "calculate_file_size");;
     ss <- for_each in_files size_one declared;;
     let output_file_sizes := listed ss in
     print (Success "calculate_file_size");;
     ret (Some output_file_sizes))
    (λ err, print (Fail "calculate_file_size" err);; ret None).

(** One pass of the loop of [calculate_read_times]. *)
Definition read_one (file : string) (rs : six) : M six :=
  if decide (file = uncompressed) then
    start_time <- time;; read_tif file;;
    t <- time;; ret (set_uncompressed (Seconds (t - start_time)) rs)
  else if decide (file = packbits) then
    start_time <- time;; read_tif file;;
    t <- time;; ret (set_packbits (Seconds (t - start_time)) rs)
  else if decide (file = deflate_1) then
    start_time <- time;; read_tif file;;
    t <- time;; ret (set_deflate_1 (Seconds (t - start_time)) rs)
  else if decide (file = deflate_2) then
    start_time <- time;; read_tif file;;
    t <- time;; ret (set_deflate_2 (Seconds (t - start_time)) rs)
  else if decide (file = lzw_1) then
    start_time <- time;; read_tif file;;
    t <- time;; ret (set_lzw_1 (Seconds (t - start_time)) rs)
  else if decide (file = lzw_2) then
    start_time <- time;; read_tif file;;
    t <- time;; ret (set_lzw_2 (Seconds (t - start_time)) rs)
  else ret rs.

Definition calculate_read_times (in_files : list string) : M row :=
  try_except
    (print (Begin "calculate_read_times");;
     rs <- for_each in_files read_one declared;;
     let output_read_speeds := listed rs in
     print (Success "calculate_read_times");;
     ret (Some output_read_speeds))
    (λ err, print (Fail "calculate_read_times" err);; ret None).

Definition remove_directory
    (in_files : list string) (delete_directory : string) : M unit :=
  try_except
    (print (Begin "remove_directory");;
     for_each in_files (λ file _, Os.remove E file) tt;;
     Os.removedirs E delete_directory;;
     print (Success "remove_directory"))
    (λ err, print (Fail "remove_directory" err)).

Definition print_results
    (in_sizes in_writes in_reads : row) (in_rows in_columns : list string)
    : M unit :=
  try_except
    (print (Begin "print_results");;
     emit (DataFrame [in_sizes; in_writes; in_reads] in_rows in_columns);;
     match pandas_frame E [in_sizes; in_writes; in_reads] in_rows in_columns with
     | Raise e => raise e
     | Ok table => print (Rendered table)
     end;;
     print (Success "print_results"))
    (λ err, print (Fail "print_results" err)).

Definition main : M unit :=
  try_except
    (start <- time;;
     print (Begin "main");;
     writes <- generate_compressed_images files src_img;;
     sizes <- calculate_file_size files;;
     reads <- calculate_read_times files;;
     remove_directory files tmp_dir;;
     print_results sizes writes reads rows columns;;
     print (Success "main");;
     end_ <- time;;
     let total_time := (end_ - start)%Z in
     print (RunTime total_time))
    (λ err, print (Fail "main" err)).

(** The module body, then [main()]. *)
Definition run : M unit := prepare;; main.

End WithSource.

(** [python CompareCompression.py argv1] *)
Definition script (argv1 : string) : M unit := run (abspath E argv1).

End WithEnv.
End Script.

(** ** Concrete engines and file systems *)

Module Examples.
Import Py Script.

(** [hurry.filesize.size(n, system=si)]: the largest power of 1000 not
    above [n], the quotient and the unit letter. *)
Definition hurry_size_si (n : N) : string :=
  if (1000 ^ 5 <=? n)%N then pretty (n / 1000 ^ 5)%N +:+ "P"
  else if (1000 ^ 4 <=? n)%N then pretty (n / 1000 ^ 4)%N +:+ "T"
  else if (1000 ^ 3 <=? n)%N then pretty (n / 1000 ^ 3)%N +:+ "G"
  else if (1000 ^ 2 <=? n)%N then pretty (n / 1000 ^ 2)%N +:+ "M"
  else if (1000 <=? n)%N then pretty (n / 1000)%N +:+ "K"
  else pretty n +:+ "B".

(** A renderer that wants three rows of six cells. *)
Definition frame_3x6 (data : list row) (index columns : list string)
    : result string :=
  if forallb (λ r : row, match r with
                         | Some l => bool_decide (length l = 6)
                         | None => false
                         end) data
  then Ok "<table>"
  else Raise (EngineError "Shape of passed values does not match the index").

(** Reading needs the file to be there. *)
Definition read_existing (tif : string) (f : gmap string node) : result Z :=
  match f !! tif with
  | Some (File _) => Ok 3%Z
  | _ => Raise (EngineError "'NoneType' object has no attribute 'ReadAsArray'")
  end.

(** Writing needs the source to be there. *)
Definition translate_existing (src : string) (f : gmap string node)
    : result (N * Z) :=
  match f !! src with
  | Some (File _) => Ok (1234%N, 5%Z)
  | _ => Raise (EngineError "Received a NULL pointer.")
  end.

(** An engine for which every variant works. *)
Definition engine_ok : env := {|
  abspath := λ p, p;
  gdal_open := λ _ _, None;
  gdal_translate := λ _ src _ f, translate_existing src f;
  gdal_read := read_existing;
  os_denied := λ _ _, false;
  dir_st_size := 4096%N;
  size_si := hurry_size_si;
  pandas_frame := frame_3x6
|}.


Definition source : string := "/data/img.tif".

(** Before a run: the image in its directory. *)
Definition fs_fresh : gmap string node :=
  {[ "/" := Dir; "/data" := Dir; "/data/img.tif" := File 5000%N ]}.
Definition w_fresh : world := World fs_fresh 100 [].

(** Before a run on a path that names nothing. *)
Definition fs_no_source : gmap string node := {[ "/" := Dir; "/data" := Dir ]}.
Definition w_no_source : world := World fs_no_source 100 [].

(** A scratch directory that already exists. *)
Definition fs_prepared : gmap string node :=
  {[ "/" := Dir; "/data" := Dir; "/data/img.tif" := File 5000%N;
     "/data/tmp" := Dir ]}.
Definition w_prepared : world := World fs_prepared 100 [].

(** After the measurements, with the second artifact missing. *)
Definition fs_packbits_missing : gmap string node :=
  {[ "/" := Dir; "/data" := Dir; "/data/img.tif" := File 5000%N;
     "/data/tmp" := Dir;
     "/data/tmp/uncompressed.tif" := File 5000%N;
     "/data/tmp/deflate_1.tif" := File 1200%N;
     "/data/tmp/deflate_2.tif" := File 1100%N;
     "/data/tmp/lzw_1.tif" := File 1400%N;
     "/data/tmp/lzw_2.tif" := File 1300%N ]}.
Definition w_packbits_missing : world := World fs_packbits_missing 100 [].

(** After the measurements, all six artifacts written, in a directory
    that holds nothing but the scratch directory. *)
Definition fs_only_scratch : gmap string node :=
  {[ "/" := Dir; "/data" := Dir; "/data/run" := Dir;
     "/data/run/tmp" := Dir;
     "/data/run/tmp/uncompressed.tif" := File 5000%N;
     "/data/run/tmp/packbits.tif" := File 4000%N;
     "/data/run/tmp/deflate_1.tif" := File 1200%N;
     "/data/run/tmp/deflate_2.tif" := File 1100%N;
     "/data/run/tmp/lzw_1.tif" := File 1400%N;
     "/data/run/tmp/lzw_2.tif" := File 1300%N ]}.
Definition w_only_scratch : world := World fs_only_scratch 100 [].

(** The source path used in the example of a run whose directory holds
    nothing but the scratch directory. *)
Definition lone_source : string := "/data/run/img.tif".

(** The same, with a file of someone else's in the scratch directory. *)
Definition w_stray_file : world :=
  World (<["/data/run/tmp/notes.txt" := File 10%N]> fs_only_scratch) 100 [].

End Examples.

(** ** The vocabulary of the properties *)

Module Spec.
Import Path Py Os Script.
Local Open Scope py_scope.

(** The file names of the six artifacts, in catalog order. *)
Definition artifact_names : list string :=
  ["uncompressed.tif"; "packbits.tif"; "deflate_1.tif"; "deflate_2.tif";
   "lzw_1.tif"; "lzw_2.tif"].

(** Failing fast on a missing source would mean: the run ends with an
    exception and the file system is as it was. *)
Definition fails_fast (E : env) (argv1 : string) (w : world) : Prop :=
  ∃ e w', script E argv1 w = (Raise e, w') ∧ fs w' = fs w.

(** Appending an event list to the trace. *)
Definition logged (w : world) (es : list event) : world :=
  World (fs w) (now w) (trace w ++ es).

(** The shape shared by the three measuring functions:
    [try: print BEGIN; <declare six variables>; for ...; print SUCCESS;
     return [...]  except Exception as err: print FAIL]. *)
Definition stage {S} (fn : string) (in_files : list string)
    (one : string → S → M S) (init : S) (listed : S → list cell) : M row :=
  try_except
    (print (Begin fn);;
     s <- for_each in_files one init;;
     print (Success fn);;
     ret (Some (listed s)))
    (λ err, print (Fail fn err);; ret None).

(** Which branch of the [if file == uncompressed: ... elif ...] chain a
    path takes: the catalog position of the path, if it has one. *)
Definition slot_of (src_img file : string) : option nat :=
  if decide (file = uncompressed src_img) then Some 0
  else if decide (file = packbits src_img) then Some 1
  else if decide (file = deflate_1 src_img) then Some 2
  else if decide (file = deflate_2 src_img) then Some 3
  else if decide (file = lzw_1 src_img) then Some 4
  else if decide (file = lzw_2 src_img) then Some 5
  else None.

(** The variable a branch assigns. *)
Definition set_slot (i : nat) (c : cell) (s : six) : six :=
  match i with
  | 0 => set_uncompressed c s
  | 1 => set_packbits c s
  | 2 => set_deflate_1 c s
  | 3 => set_deflate_2 c s
  | 4 => set_lzw_1 c s
  | 5 => set_lzw_2 c s
  | _ => s
  end.

(** The option string a branch of the encoder uses. *)
Definition command_at (i : nat) : string :=
  match i with
  | 0 => command_uncompressed
  | 1 => command_packbits
  | 2 => command_deflate_1
  | 3 => command_deflate_2
  | 4 => command_lzw_1
  | _ => command_lzw_2
  end.

(** A loop body that measures the file of a catalog position and stores
    the result in that position's variable; other paths are skipped. *)
Definition by_slot (src_img : string) (measure : nat → string → M cell)
    (file : string) (s : six) : M six :=
  match slot_of src_img file with
  | Some i => c <- measure i file;; ret (set_slot i c s)
  | None => ret s
  end.

(** What the encoder does for one catalog entry. *)
Definition encode_at (E : env) (input_image : string) (i : nat) (file : string)
    : M cell :=
  start_time <- time;;
  gdal_Open E input_image;;
  gdal_Translate E file input_image (command_at i);;
  t <- time;;
  ret (Seconds (t - start_time)).

(** What the size inspector does for one catalog entry. *)
Definition size_at (E : env) (i : nat) (file : string) : M cell :=
  n <- Os.getsize E file;; ret (Str (size_si E n)).

(** What the decoder does for one catalog entry. *)
Definition read_at (E : env) (i : nat) (file : string) : M cell :=
  start_time <- time;;
  read_tif E file;;
  t <- time;;
  ret (Seconds (t - start_time)).

(** What [print_results] leaves in the trace. *)
Definition report_events (E : env) (in_sizes in_writes in_reads : row)
    (in_rows in_columns : list string) : list event :=
  [Print (Begin "print_results");
   DataFrame [in_sizes; in_writes; in_reads] in_rows in_columns]
  ++ match pandas_frame E [in_sizes; in_writes; in_reads] in_rows in_columns with
     | Ok table => [Print (Rendered table); Print (Success "print_results")]
     | Raise e => [Print (Fail "print_results" e)]
     end.

(** A stage's result, read against the catalog: a list of six cells in
    which position [i] holds a measurement of the [i]-th catalog path
    when that path was given, and the sentinel when it was not. *)
Definition aligned (src_img : string) (in_files : list string)
    (measured : string → cell → Prop) (l : list cell) : Prop :=
  length l = 6
  ∧ ∀ i file, files src_img !! i = Some file →
      (file ∈ in_files → ∃ c, l !! i = Some c ∧ measured file c)
      ∧ (file ∉ in_files → l !! i = Some sentinel).

(** The encode of [file] returns: neither [gdal.Open] nor
    [gdal.Translate] raises. *)
Definition encode_returns (E : env) (src file command : string)
    (f : gmap string node) : Prop :=
  gdal_open E src f = None
  ∧ ∃ n dt, gdal_translate E file src command f = Ok (n, dt).


(** Two file systems that differ at most at [paths]. *)
Definition agrees_outside (paths : list string) (f g : gmap string node) : Prop :=
  ∀ p, p ∉ paths → f !! p = g !! p.

(** The events of a trace that write to one of [paths]. *)
Definition writes_to (paths : list string) (ev : event) : Prop :=
  match ev with
  | GdalTranslate dest _ _ => dest ∈ paths
  | _ => False
  end.

(** [os.path.getsize(p)] returns. *)
Definition stat_ok (E : env) (f : gmap string node) (p : string) : bool :=
  negb (os_denied E Stat p) && bool_decide (is_Some (f !! p)).

(** What [os.path.getsize(p)] returns when it does. *)
Definition st_size_of (E : env) (f : gmap string node) (p : string) : N :=
  match f !! p with
  | Some (File n) => n
  | _ => dir_st_size E
  end.

(** What [os.path.getsize(p)] raises when it does not return. *)
Definition stat_error (E : env) (p : string) : exn :=
  if os_denied E Stat p then PermissionError p else FileNotFoundError p.

(** The catalog paths among [paths], in order: the ones the loop looks at. *)
Definition inspected (src_img : string) (paths : list string) : list string :=
  filter (λ p, p ∈ files src_img) paths.


(** [os.remove(p)] returns. *)
Definition unlink_ok (E : env) (f : gmap string node) (p : string) : bool :=
  negb (os_denied E Unlink p)
  && match f !! p with Some (File _) => true | _ => false end.

(** What [os.remove(p)] raises when it does not return. *)
Definition unlink_error (E : env) (f : gmap string node) (p : string) : exn :=
  if os_denied E Unlink p then PermissionError p
  else match f !! p with
       | None => FileNotFoundError p
       | _ => IsADirectoryError p
       end.

(** The file system once the paths of a list are deleted, in order. *)
Fixpoint delete_all (ps : list string) (f : gmap string node) : gmap string node :=
  match ps with
  | [] => f
  | p :: ps' => delete_all ps' (delete p f)
  end.

(** [os.rmdir(p)] returns. *)
Definition rmdir_ok (E : env) (f : gmap string node) (p : string) : bool :=
  negb (os_denied E SysRmdir p)
  && match f !! p with
     | Some Dir => negb (is_root p) && is_empty_dir p f
     | _ => false
     end.

(** [chain] lists the directories the loop visits from [head] upwards,
    as long as it has a head and a tail to go on with. *)
Fixpoint climbs (head tail : string) (chain : list string) : Prop :=
  match chain with
  | [] => True
  | a :: rest =>
      a = head ∧ head ≠ "" ∧ tail ≠ ""
      ∧ climbs (split head).1 (split head).2 rest
  end.

(** Each directory of [chain] can be removed once the ones before it are. *)
Fixpoint removable (E : env) (f : gmap string node) (chain : list string) : Prop :=
  match chain with
  | [] => True
  | a :: rest => rmdir_ok E f a = true ∧ removable E (delete a f) rest
  end.

(** The five stages [main] goes through. *)
Inductive phase := Encode | Inspect | Decode | Cleanup | Report.

(** The stage a function of the script belongs to. *)
Definition phase_of_fn (fn : string) : option phase :=
  if decide (fn = "generate_compressed_images") then Some Encode
  else if decide (fn = "calculate_file_size") then Some Inspect
  else if decide (fn = "calculate_read_times") then Some Decode
  else if decide (fn = "remove_directory") then Some Cleanup
  else if decide (fn = "print_results") then Some Report
  else None.

(** The stage an event belongs to: engine writes are encodes, size
    queries inspections, engine reads decodes, deletions cleanup, the
    frame and its rendering the report. *)
Definition phase_of (ev : event) : option phase :=
  match ev with
  | Print (Begin fn) | Print (Success fn) | Print (Fail fn _) => phase_of_fn fn
  | Print (Rendered _) => Some Report
  | Print (RunTime _) => None
  | GdalOpen _ | GdalTranslate _ _ _ => Some Encode
  | Getsize _ => Some Inspect
  | GdalReadAsArray _ => Some Decode
  | Remove _ | Rmdir _ => Some Cleanup
  | Mkdir _ => None
  | DataFrame _ _ _ => Some Report
  end.

(** The event belongs to the stage. *)
Definition in_phase (ph : phase) (ev : event) : Prop := phase_of ev = Some ph.

(** A computation all of whose events satisfy [P], however it ends. *)
Definition emits {A} (P : event → Prop) (m : M A) : Prop :=
  ∀ w, ∃ t, trace (m w).2 = trace w ++ t ∧ Forall P t.

(** Every run of [m] takes the file system to one related to it by [R],
    whether [m] returns or raises. *)
Definition changes_by {A} (R : relation (gmap string node)) (m : M A) : Prop :=
  ∀ w, R (fs w) (fs (m w).2).

(** [g] is [f] outside [paths]. *)
Definition same_outside (paths : list string) (f g : gmap string node) : Prop :=
  agrees_outside paths g f.

(** Every path of [g] is as in [f], or is gone; what is gone was one of
    [paths] or a directory. *)
Definition only_deletes (paths : list string) (f g : gmap string node) : Prop :=
  ∀ p, g !! p = f !! p
       ∨ (g !! p = None ∧ (p ∈ paths ∨ f !! p = Some Dir)).

(** [g] has every entry of [f], unchanged, and beyond them only
    directories. *)
Definition only_adds_dirs (f g : gmap string node) : Prop :=
  (∀ p x, f !! p = Some x → g !! p = Some x)
  ∧ (∀ p x, g !! p = Some x → f !! p = Some x ∨ x = Dir).

(** [p] is a regular file of [f]. *)
Definition is_file (f : gmap string node) (p : string) : Prop :=
  ∃ n, f !! p = Some (File n).

(** [gdal.Open(tif).ReadAsArray()] returns, in [dt] ticks. *)
Definition read_ok (E : env) (f : gmap string node) (p : string) : Prop :=
  ∃ dt, gdal_read E p f = Ok dt.

(** Every path of [g] is as in [f], or is an [allowed] path that is now
    a regular file. *)
Definition writes_only (allowed : string → Prop) (f g : gmap string node) : Prop :=
  ∀ p, g !! p = f !! p ∨ (allowed p ∧ is_file g p).

(** A regular file at [p] stays as it is. *)
Definition keeps_file (p : string) (f g : gmap string node) : Prop :=
  ∀ n, f !! p = Some (File n) → g !! p = Some (File n).

(** The platform refuses no call on [p]. *)
Definition permitted (E : env) (p : string) : Prop :=
  ∀ call, os_denied E call p = false.

(** The file system start-up leaves when it has to create the scratch
    directory. *)
Definition prepared (src_img : string) (f : gmap string node)
    : gmap string node :=
  <[tmp_dir src_img := Dir]> f.

(** The six artifacts are regular files of [f]. *)
Definition all_written (src_img : string) (f : gmap string node) : Prop :=
  ∀ p, p ∈ files src_img → is_file f p.

End Spec.

(** ** Where the scratch directory and the artifacts live *)

Module Layout.
Import Path PathFacts Py Script.
Import Spec.

Lemma artifact_names_plain :
  Forall (λ n, has_sep n = false ∧ n ≠ "" ∧ endswith_sep n = false)
    artifact_names.
Proof. repeat constructor; done. Qed.

Lemma dirname_shape (p : string) :
  rstrip_sep (dirname p) = "" ∨ rstrip_sep (dirname p) = dirname p.
Proof. apply strip_head_shape. Qed.

Lemma split_tmp_dir (src_img : string) :
  split (tmp_dir src_img) = (dirname src_img, "tmp").
Proof. apply split_join; [done | done | apply dirname_shape]. Qed.

Lemma tmp_dir_shape (src_img : string) :
  rstrip_sep (tmp_dir src_img) = tmp_dir src_img.
Proof. by apply join_shape. Qed.

Lemma files_joined (src_img : string) :
  files src_img = join (tmp_dir src_img) <$> artifact_names.
Proof. reflexivity. Qed.

Lemma split_artifact (src_img n : string) :
  n ∈ artifact_names → split (join (tmp_dir src_img) n) = (tmp_dir src_img, n).
Proof.
  intros Hn. pose proof artifact_names_plain as Hall.
  rewrite list.Forall_forall in Hall. destruct (Hall n Hn) as (H1 & H2 & _).
  apply split_join; [done | done |]. right. apply tmp_dir_shape.
Qed.

(** The six paths are pairwise different. *)
Lemma files_NoDup (src_img : string) : NoDup (files src_img).
Proof.
  rewrite files_joined. apply NoDup_fmap_2_strong.
  - intros n m Hn Hm Heq. pose proof artifact_names_plain as Hall.
    rewrite list.Forall_forall in Hall.
    destruct (Hall n Hn) as (Hsn & _ & _), (Hall m Hm) as (Hsm & _ & _).
    eapply join_inj; [| | exact Heq].
    + destruct n; [done |]. simpl in *. by apply orb_false_iff in Hsn as [-> _].
    + destruct m; [done |]. simpl in *. by apply orb_false_iff in Hsm as [-> _].
  - apply (bool_decide_unpack _). by vm_compute.
Qed.

(** C8. Whatever the source image path, the scratch directory is the
    entry [tmp] of the directory of the source image, and the six
    artifact paths are the entries [uncompressed.tif], [packbits.tif],
    [deflate_1.tif], [deflate_2.tif], [lzw_1.tif], [lzw_2.tif] of the
    scratch directory, listed in that order. *)
Theorem scratch_layout (E : env) (argv1 : string) :
  let src_img := abspath E argv1 in
  basename (tmp_dir src_img) = "tmp"
  ∧ dirname (tmp_dir src_img) = dirname src_img
  ∧ basename <$> files src_img =
      ["uncompressed.tif"; "packbits.tif"; "deflate_1.tif"; "deflate_2.tif";
       "lzw_1.tif"; "lzw_2.tif"]
  ∧ Forall (λ file, dirname file = tmp_dir src_img) (files src_img)
  ∧ script E argv1 = run E src_img.
Proof.
  intros src_img.
  pose proof (split_tmp_dir src_img) as Ht.
  assert (∀ n, n ∈ artifact_names →
    basename (join (tmp_dir src_img) n) = n
    ∧ dirname (join (tmp_dir src_img) n) = tmp_dir src_img) as Hf.
  { intros n Hn. pose proof (split_artifact src_img n Hn) as Hs.
    unfold split in Hs. injection Hs as Hd Hb. done. }
  unfold split in Ht. injection Ht as Hd Hb.
  split; [exact Hb |]. split; [exact Hd |].
  split; [| split; [| reflexivity]].
  - rewrite files_joined. unfold artifact_names. simpl.
    pose proof (λ n H, proj1 (Hf n H)) as Hn.
    rewrite !Hn by (apply (bool_decide_unpack _); by vm_compute). done.
  - rewrite files_joined, Forall_fmap, list.Forall_forall.
    intros n Hn. simpl. by apply Hf.
Qed.

End Layout.

(** ** Start-up: creating the scratch directory *)

Module Startup.
Import Path PathFacts Py Os Script Layout.
Import Spec.

(** Unfolds the monad down to a [match] on worlds. *)
Ltac run_py :=
  unfold bind, ret, raise, try_except, try_except_OSError, print, emit,
    get_fs, put_fs, elapse, time in *; simpl in *.


Lemma exists_bind {A} (p : string) (k : bool → M A) (w : world) :
  bind (exists_ p) k w = k (bool_decide (is_Some (fs w !! p))) w.
Proof. reflexivity. Qed.

(** [mkdir] either raises and leaves the files alone, or creates
    exactly the directory asked for. *)
Lemma mkdir_outcome (E : env) (p : string) (w : world) :
  (∃ e, mkdir E p w = (Raise e, World (fs w) (now w) (trace w ++ [Mkdir p])))
  ∨ (fs w !! p = None
     ∧ mkdir E p w =
         (Ok tt, World (<[p := Dir]> (fs w)) (now w) (trace w ++ [Mkdir p]))).
Proof.
  unfold mkdir. run_py.
  destruct (os_denied E SysMkdir p); [left; eauto |].
  case_bool_decide as Hex; [left; eauto |].
  assert (fs w !! p = None) as Hnone.
  { destruct (fs w !! p) eqn:Hp; [|done]. exfalso. apply Hex. eauto. }
  case_bool_decide; [right; eauto |].
  destruct (fs w !! dirname p) as [[n|]|]; [left | right | left]; eauto.
Qed.

Lemma mkdir_under_existing (E : env) (p : string) (w : world) :
  os_denied E SysMkdir p = false →
  fs w !! p = None →
  fs w !! dirname p = Some Dir →
  mkdir E p w =
    (Ok tt, World (<[p := Dir]> (fs w)) (now w) (trace w ++ [Mkdir p])).
Proof.
  intros Hden Hp Hparent. unfold mkdir. run_py. rewrite Hden.
  rewrite bool_decide_eq_false_2 by (rewrite Hp; by intros [? ?]).
  rewrite Hparent. by case_bool_decide.
Qed.



Lemma makedirs_tmp_dir_under_existing (E : env) (src_img : string) (w : world) :
  os_denied E SysMkdir (tmp_dir src_img) = false →
  fs w !! tmp_dir src_img = None →
  fs w !! dirname src_img = Some Dir →
  makedirs E (tmp_dir src_img) w =
    (Ok tt, World (<[tmp_dir src_img := Dir]> (fs w)) (now w)
              (trace w ++ [Mkdir (tmp_dir src_img)])).
Proof.
  intros Hden Habsent Hparent.
  assert (dirname (tmp_dir src_img) = dirname src_img) as Hd.
  { pose proof (split_tmp_dir src_img) as Hs. unfold split in Hs.
    by injection Hs. }
  assert (makedirs E (tmp_dir src_img) w = mkdir E (tmp_dir src_img) w) as ->.
  { unfold makedirs.
    destruct (String.length (tmp_dir src_img)) as [|fuel]; simpl;
      rewrite split_tmp_dir; unfold split_again; simpl;
      rewrite exists_bind;
      rewrite (bool_decide_eq_true_2 (is_Some _)) by (rewrite Hparent; eauto);
      simpl; by rewrite andb_false_r. }
  apply mkdir_under_existing; [done | done | by rewrite Hd].
Qed.




End Startup.

(** ** Loops and stages, in general *)

Module Loops.
Import Py.
Import Spec.
Local Open Scope py_scope.

Lemma logged_nil (w : world) : logged w [] = w.
Proof. destruct w. unfold logged. simpl. by rewrite app_nil_r. Qed.

Lemma logged_logged (w : world) (es es' : list event) :
  logged (logged w es) es' = logged w (es ++ es').
Proof. unfold logged. simpl. by rewrite app_assoc. Qed.

Lemma print_run (m : message) (w : world) :
  print m w = (Ok tt, logged w [Print m]).
Proof. reflexivity. Qed.

Lemma for_each_app {A S} (xs ys : list A) (body : A → S → M S) (s : S) (w : world) :
  for_each (xs ++ ys) body s w =
    match for_each xs body s w with
    | (Ok s', w') => for_each ys body s' w'
    | (Raise e, w') => (Raise e, w')
    end.
Proof.
  revert s w. induction xs as [|x xs IH]; intros s w; simpl; [done |].
  unfold bind. destruct (body x s w) as [[s'|e] w']; [apply IH | done].
Qed.

(** The invariant rule for [for]: what holds before the loop and is
    kept by every pass holds when the loop ends or is left by an
    exception. *)
Lemma for_each_invariant {A S} (I : S → world → Prop) (R : exn → world → Prop)
    (xs : list A) (body : A → S → M S) (s : S) (w : world) :
  I s w →
  (∀ x s w, x ∈ xs → I s w →
     match body x s w with
     | (Ok s', w') => I s' w'
     | (Raise e, w') => R e w'
     end) →
  match for_each xs body s w with
  | (Ok s', w') => I s' w'
  | (Raise e, w') => R e w'
  end.
Proof.
  revert s w. induction xs as [|x xs IH]; intros s w Hs Hbody; simpl; [done |].
  unfold bind. pose proof (Hbody x s w ltac:(left) Hs) as Hx.
  destruct (body x s w) as [[s'|e] w']; [| done].
  apply IH; [done |]. intros y s1 w1 Hy. apply Hbody. by right.
Qed.

(** A stage returns the listed variables when its loop ends, and [None]
    when its loop is left by an exception; it never raises. *)
Lemma stage_run {S} (fn : string) (in_files : list string)
    (one : string → S → M S) (init : S) (listed : S → list cell) (w : world) :
  stage fn in_files one init listed w =
    match for_each in_files one init (logged w [Print (Begin fn)]) with
    | (Ok s, w') => (Ok (Some (listed s)), logged w' [Print (Success fn)])
    | (Raise e, w') => (Ok None, logged w' [Print (Fail fn e)])
    end.
Proof.
  unfold stage, try_except, bind. rewrite print_run.
  destruct (for_each _ _ _ _) as [[s|e] w']; by rewrite print_run.
Qed.

End Loops.

(** ** The per-variant branches, by catalog position *)

Module Slots.
Import Py Script Layout Loops.
Import Spec.
Local Open Scope py_scope.

Lemma slot_of_sound (src_img file : string) (i : nat) :
  slot_of src_img file = Some i → files src_img !! i = Some file.
Proof.
  unfold slot_of. repeat case_decide; intros [= <-]; by subst.
Qed.

Lemma slot_of_None (src_img file : string) :
  slot_of src_img file = None → file ∉ files src_img.
Proof.
  unfold slot_of. repeat case_decide; try done. intros _ Hin.
  unfold files in Hin.
  repeat (apply elem_of_cons in Hin as [? | Hin]; [done |]).
  by apply elem_of_nil in Hin.
Qed.

Lemma slot_of_complete (src_img file : string) (i : nat) :
  files src_img !! i = Some file → slot_of src_img file = Some i.
Proof.
  intros Hi. destruct (slot_of src_img file) as [j|] eqn:Hj.
  - apply slot_of_sound in Hj. f_equal.
    eapply NoDup_lookup; [apply files_NoDup | exact Hj | exact Hi].
  - apply slot_of_None in Hj. exfalso. apply Hj.
    eapply list_elem_of_lookup_2, Hi.
Qed.

Lemma listed_set_slot (i : nat) (c : cell) (s : six) :
  listed (set_slot i c s) = <[i := c]> (listed s).
Proof. by destruct i as [|[|[|[|[|[|]]]]]]. Qed.

Lemma listed_length (s : six) : length (listed s) = 6.
Proof. reflexivity. Qed.

Section WithEnv.
Variable E : env.

Ltac by_cases :=
  unfold by_slot, slot_of; repeat case_decide; try reflexivity.

Lemma encode_one_by_slot (src_img input_image file : string) (s : six) (w : world) :
  encode_one E src_img input_image file s w =
    by_slot src_img (encode_at E input_image) file s w.
Proof.
  unfold encode_one, encode_at. by_cases; subst;
    unfold bind, time, ret; simpl;
    destruct (gdal_Open E input_image w) as [[[]|?] ?]; try reflexivity;
    destruct (gdal_Translate E _ input_image _ _) as [[[]|?] ?]; reflexivity.
Qed.

Lemma size_one_by_slot (src_img file : string) (s : six) (w : world) :
  size_one E src_img file s w = by_slot src_img (size_at E) file s w.
Proof.
  unfold size_one, size_at. by_cases; subst;
    unfold bind, ret; simpl;
    destruct (Os.getsize E _ w) as [[?|?] ?]; reflexivity.
Qed.

Lemma read_one_by_slot (src_img file : string) (s : six) (w : world) :
  read_one E src_img file s w = by_slot src_img (read_at E) file s w.
Proof.
  unfold read_one, read_at. by_cases; subst;
    unfold bind, time, ret; simpl;
    destruct (read_tif E _ w) as [[[]|?] ?]; reflexivity.
Qed.

End WithEnv.

Lemma for_each_ext {A S} (xs : list A) (body body' : A → S → M S) (s : S) (w : world) :
  (∀ x s w, body x s w = body' x s w) →
  for_each xs body s w = for_each xs body' s w.
Proof.
  intros Hext. revert s w. induction xs as [|x xs IH]; intros s w; simpl; [done |].
  unfold bind. rewrite Hext. destruct (body' x s w) as [[?|?] ?]; [apply IH | done].
Qed.

(** The three measuring functions are instances of the one stage shape. *)
Lemma generate_compressed_images_stage (E : env) (src_img : string)
    (in_files : list string) (input_image : string) (w : world) :
  generate_compressed_images E src_img in_files input_image w =
    stage "generate_compressed_images" in_files
      (by_slot src_img (encode_at E input_image)) declared listed w.
Proof.
  unfold generate_compressed_images, stage, try_except, bind.
  rewrite !print_run.
  rewrite (for_each_ext _ _ _ _ _ (encode_one_by_slot E src_img input_image)).
  reflexivity.
Qed.

Lemma calculate_file_size_stage (E : env) (src_img : string)
    (in_files : list string) (w : world) :
  calculate_file_size E src_img in_files w =
    stage "calculate_file_size" in_files
      (by_slot src_img (size_at E)) declared listed w.
Proof.
  unfold calculate_file_size, stage, try_except, bind.
  rewrite !print_run.
  rewrite (for_each_ext _ _ _ _ _ (size_one_by_slot E src_img)).
  reflexivity.
Qed.

Lemma calculate_read_times_stage (E : env) (src_img : string)
    (in_files : list string) (w : world) :
  calculate_read_times E src_img in_files w =
    stage "calculate_read_times" in_files
      (by_slot src_img (read_at E)) declared listed w.
Proof.
  unfold calculate_read_times, stage, try_except, bind.
  rewrite !print_run.
  rewrite (for_each_ext _ _ _ _ _ (read_one_by_slot E src_img)).
  reflexivity.
Qed.

End Slots.


(** ** Start-up on a source that is not there *)

Module Launch.
Import Path PathFacts Py Os Script Layout Startup Loops Examples.
Import Spec.

(** Whatever happens inside, [main] returns: its handler only prints. *)
Lemma main_returns (E : env) (src_img : string) (w : world) :
  ∃ w', main E src_img w = (Ok tt, w').
Proof.
  unfold main, try_except.
  match goal with |- context [match ?m w with _ => _ end] =>
    destruct (m w) as [[[]|e] w1] end; [by eexists |].
  rewrite print_run. by eexists.
Qed.


(** C5, as stated, fails: the source path names nothing, yet start-up
    creates the scratch directory, nothing is raised, and the scratch
    directory is still there when the run is over. *)
Lemma missing_source_counterexample :
  fs w_no_source !! abspath engine_ok source = None
  ∧ prepare engine_ok (abspath engine_ok source) w_no_source =
      (Ok tt, World (<["/data/tmp" := Dir]> fs_no_source) 100 [Mkdir "/data/tmp"])
  ∧ (script engine_ok source w_no_source).1 = Ok tt
  ∧ fs (script engine_ok source w_no_source).2 !! "/data/tmp" = Some Dir
  ∧ ¬ fails_fast engine_ok source w_no_source.
Proof.
  split; [by vm_compute |]. split; [by vm_compute |].
  split; [by vm_compute |]. split; [by vm_compute |].
  intros (e & w' & Hrun & _).
  assert ((script engine_ok source w_no_source).1 = Ok tt) as Hok by (by vm_compute).
  rewrite Hrun in Hok. discriminate Hok.
Qed.

(** C5, amended. For a source image path that does not exist, start-up
    neither looks at the source nor raises an input error: when the
    scratch directory is absent and the directory of the source exists
    and may be written to, the scratch directory is created at once, and
    the whole run returns normally. *)
Theorem missing_source_not_checked (E : env) (argv1 : string) (w : world) :
  let src_img := abspath E argv1 in
  fs w !! src_img = None →
  fs w !! tmp_dir src_img = None →
  fs w !! dirname src_img = Some Dir →
  os_denied E SysMkdir (tmp_dir src_img) = false →
  prepare E src_img w =
    (Ok tt, World (<[tmp_dir src_img := Dir]> (fs w)) (now w)
              (trace w ++ [Mkdir (tmp_dir src_img)]))
  ∧ ∃ w', script E argv1 w = (Ok tt, w').
Proof.
  intros src_img _ Habsent Hparent Hden.
  assert (prepare E src_img w =
    (Ok tt, World (<[tmp_dir src_img := Dir]> (fs w)) (now w)
              (trace w ++ [Mkdir (tmp_dir src_img)]))) as Hprep.
  { unfold prepare. rewrite exists_bind.
    rewrite bool_decide_eq_false_2 by (rewrite Habsent; by intros [? ?]).
    simpl. by apply makedirs_tmp_dir_under_existing. }
  split; [exact Hprep |].
  unfold script, run, bind. fold src_img. rewrite Hprep. apply main_returns.
Qed.

Lemma missing_source_not_checked_witness :
  prepare engine_ok source w_no_source =
    (Ok tt, World (<["/data/tmp" := Dir]> fs_no_source) 100 [Mkdir "/data/tmp"])
  ∧ ∃ w', script engine_ok source w_no_source = (Ok tt, w').
Proof.
  apply (missing_source_not_checked engine_ok source w_no_source);
    by vm_compute.
Defined.

End Launch.


(** ** How [main] chains the stages *)

Module Pipeline.
Import Py Os Script Layout Loops Slots.
Import Spec.

Lemma stage_returns {S} (fn : string) (in_files : list string)
    (one : string → S → M S) (init : S) (listed : S → list cell) (w : world) :
  ∃ r w', stage fn in_files one init listed w = (Ok r, w').
Proof.
  rewrite stage_run. destruct (for_each _ _ _ _) as [[s|e] w']; eauto.
Qed.

Lemma generate_compressed_images_returns (E : env) (src_img : string)
    (in_files : list string) (input_image : string) (w : world) :
  ∃ r w', generate_compressed_images E src_img in_files input_image w = (Ok r, w').
Proof. rewrite generate_compressed_images_stage. apply stage_returns. Qed.

Lemma calculate_file_size_returns (E : env) (src_img : string)
    (in_files : list string) (w : world) :
  ∃ r w', calculate_file_size E src_img in_files w = (Ok r, w').
Proof. rewrite calculate_file_size_stage. apply stage_returns. Qed.

Lemma calculate_read_times_returns (E : env) (src_img : string)
    (in_files : list string) (w : world) :
  ∃ r w', calculate_read_times E src_img in_files w = (Ok r, w').
Proof. rewrite calculate_read_times_stage. apply stage_returns. Qed.

Lemma remove_directory_run (E : env) (in_files : list string)
    (delete_directory : string) (w : world) :
  remove_directory E in_files delete_directory w =
    match for_each in_files (λ file _, remove E file) tt
            (logged w [Print (Begin "remove_directory")]) with
    | (Ok _, w1) =>
        match removedirs E delete_directory w1 with
        | (Ok _, w2) => (Ok tt, logged w2 [Print (Success "remove_directory")])
        | (Raise e, w2) => (Ok tt, logged w2 [Print (Fail "remove_directory" e)])
        end
    | (Raise e, w1) => (Ok tt, logged w1 [Print (Fail "remove_directory" e)])
    end.
Proof.
  unfold remove_directory, try_except, bind. rewrite print_run.
  destruct (for_each _ _ _ _) as [[[]|e] w1]; [| by rewrite print_run].
  destruct (removedirs _ _ _) as [[[]|e] w2]; by rewrite print_run.
Qed.

Lemma remove_directory_returns (E : env) (in_files : list string)
    (delete_directory : string) (w : world) :
  ∃ w', remove_directory E in_files delete_directory w = (Ok tt, w').
Proof.
  rewrite remove_directory_run.
  destruct (for_each _ _ _ _) as [[[]|e] w1]; [| eauto].
  destruct (removedirs _ _ _) as [[[]|e] w2]; eauto.
Qed.

Lemma print_results_run (E : env) (in_sizes in_writes in_reads : row)
    (in_rows in_columns : list string) (w : world) :
  print_results E in_sizes in_writes in_reads in_rows in_columns w =
    (Ok tt, logged w (report_events E in_sizes in_writes in_reads in_rows in_columns)).
Proof.
  unfold print_results, report_events, try_except, bind, print, emit, raise, logged.
  simpl. destruct (pandas_frame _ _ _ _); simpl; by rewrite <- !app_assoc.
Qed.

(** [main] runs the five calls one after the other, handing each result
    on as it is. *)
Lemma main_run (E : env) (src_img : string) (w : world) :
  ∃ writes sizes reads w1 w2 w3 w4,
    generate_compressed_images E src_img (files src_img) src_img
      (logged w [Print (Begin "main")]) = (Ok writes, w1)
    ∧ calculate_file_size E src_img (files src_img) w1 = (Ok sizes, w2)
    ∧ calculate_read_times E src_img (files src_img) w2 = (Ok reads, w3)
    ∧ remove_directory E (files src_img) (tmp_dir src_img) w3 = (Ok tt, w4)
    ∧ main E src_img w =
        (Ok tt,
         logged w4
           (report_events E sizes writes reads rows columns
            ++ [Print (Success "main"); Print (RunTime (now w4 - now w))])).
Proof.
  destruct (generate_compressed_images_returns E src_img (files src_img) src_img
              (logged w [Print (Begin "main")])) as (writes & w1 & H1).
  destruct (calculate_file_size_returns E src_img (files src_img) w1)
    as (sizes & w2 & H2).
  destruct (calculate_read_times_returns E src_img (files src_img) w2)
    as (reads & w3 & H3).
  destruct (remove_directory_returns E (files src_img) (tmp_dir src_img) w3)
    as (w4 & H4).
  exists writes, sizes, reads, w1, w2, w3, w4.
  repeat (split; [done |]).
  unfold main, try_except, bind, time. rewrite print_run, H1, H2, H3, H4.
  rewrite print_results_run, !print_run, !logged_logged. reflexivity.
Qed.


End Pipeline.


(** ** What a measuring loop leaves in the six variables *)

Module Rows.
Import Py Os Script Layout Loops Slots.
Import Spec.

(** After a loop that ends, the variable of a catalog path holds a
    measurement of that path if the path was in the list, and is
    untouched otherwise. [I] is what the measurements keep true of the
    world, [Q] what is known of a cell measured for a path. *)
Lemma by_slot_loop (src_img : string) (measure : nat → string → M cell)
    (I : world → Prop) (Q : string → cell → Prop)
    (xs : list string) (s : six) (w : world) :
  (∀ i file w, I w → files src_img !! i = Some file →
     match measure i file w with
     | (Ok c, w') => I w' ∧ Q file c
     | (Raise _, _) => True
     end) →
  I w →
  match for_each xs (by_slot src_img measure) s w with
  | (Ok s', w') =>
      I w' ∧ ∀ i file, files src_img !! i = Some file →
        (file ∈ xs → ∃ c, listed s' !! i = Some c ∧ Q file c)
        ∧ (file ∉ xs → listed s' !! i = listed s !! i)
  | (Raise _, _) => True
  end.
Proof.
  intros Hmeasure. revert s w.
  induction xs as [|x xs IH]; intros s w Hw; simpl.
  { split; [done |]. intros i file _. split; [by intros ?%elem_of_nil | done]. }
  unfold bind, by_slot at 1.
  destruct (slot_of src_img x) as [j|] eqn:Hj.
  - pose proof (slot_of_sound _ _ _ Hj) as Hjx.
    pose proof (Hmeasure j x w Hw Hjx) as Hm. unfold bind.
    destruct (measure j x w) as [[c|e] w1]; [| done]. simpl.
    destruct Hm as [Hw1 Hc].
    pose proof (IH (set_slot j c s) w1 Hw1) as Hrest.
    destruct (for_each xs _ _ w1) as [[s'|e] w']; [| done].
    destruct Hrest as [Hw' Hcells]. split; [done |].
    intros i file Hi. destruct (Hcells i file Hi) as [Hin Hout].
    destruct (decide (file ∈ xs)) as [Hxs | Hxs].
    + split; [intros _; by apply Hin |].
      intros Hnot. exfalso. apply Hnot. by right.
    + rewrite (Hout Hxs), listed_set_slot.
      destruct (decide (file = x)) as [-> | Hne].
      * assert (i = j) as -> by (eapply NoDup_lookup; eauto using files_NoDup).
        split; [| intros Hnot; exfalso; apply Hnot; by left].
        intros _. exists c. split; [| done].
        apply list_lookup_insert_eq. by apply lookup_lt_Some in Hi.
      * assert (j ≠ i) as Hji by (intros ->; congruence).
        rewrite list_lookup_insert_ne by done.
        split; [| done]. intros [? | ?]%elem_of_cons; done.
  - simpl. pose proof (slot_of_None _ _ Hj) as Hx.
    pose proof (IH s w Hw) as Hrest. unfold ret.
    destruct (for_each xs _ s w) as [[s'|e] w']; [| done].
    destruct Hrest as [Hw' Hcells]. split; [done |].
    intros i file Hi. destruct (Hcells i file Hi) as [Hin Hout].
    assert (file ≠ x) as Hne.
    { intros ->. apply Hx. eapply list_elem_of_lookup_2, Hi. }
    split.
    + intros [? | ?]%elem_of_cons; [done | by apply Hin].
    + intros Hnot. apply Hout. intros ?. apply Hnot. by right.
Qed.

(** What a stage returns and prints last, from what its measurements
    guarantee. *)
Lemma stage_by_slot (src_img fn : string) (measure : nat → string → M cell)
    (I : world → Prop) (Q : string → cell → Prop)
    (in_files : list string) (w : world) :
  (∀ i file w, I w → files src_img !! i = Some file →
     match measure i file w with
     | (Ok c, w') => I w' ∧ Q file c
     | (Raise _, _) => True
     end) →
  I (logged w [Print (Begin fn)]) →
  ∃ r w', stage fn in_files (by_slot src_img measure) declared listed w = (Ok r, w')
    ∧ match r with
      | Some l => aligned src_img in_files Q l
                  ∧ last (trace w') = Some (Print (Success fn))
      | None => ∃ e, last (trace w') = Some (Print (Fail fn e))
      end.
Proof.
  intros Hmeasure Hw. rewrite stage_run.
  pose proof (by_slot_loop src_img measure I Q in_files declared _ Hmeasure Hw)
    as Hloop.
  destruct (for_each _ _ _ _) as [[s|e] w1].
  - eexists _, _. split; [done |]. simpl. rewrite last_snoc.
    split; [| done]. split; [done |].
    destruct Hloop as [_ Hcells]. intros i file Hi.
    destruct (Hcells i file Hi) as [Hin Hout]. split; [done |].
    intros Hnot. rewrite (Hout Hnot).
    apply lookup_lt_Some in Hi. simpl in Hi.
    by destruct i as [|[|[|[|[|[|]]]]]]; [..| lia].
  - eexists _, _. split; [done |]. simpl. rewrite last_snoc. eauto.
Qed.

End Rows.


(** ** The encoder *)

Module Encoder.
Import Py Os Script Layout Loops Slots Rows Pipeline Examples.
Import Spec.

Lemma encode_at_returns (E : env) (input : string) (i : nat) (file : string)
    (w : world) :
  encode_returns E input file (command_at i) (fs w) →
  ∃ n dt, encode_at E input i file w =
    (Ok (Seconds dt),
     World (<[file := File n]> (fs w)) (now w + dt)
       (trace w ++ [GdalOpen input; GdalTranslate file input (command_at i)])).
Proof.
  intros [Hopen (n & dt & Htr)]. exists n, dt.
  unfold encode_at, gdal_Open, gdal_Translate, bind, time, emit, get_fs,
    put_fs, elapse, ret, raise. simpl.
  rewrite Hopen. simpl. rewrite Htr. simpl.
  rewrite <- app_assoc. simpl. do 3 f_equal. lia.
Qed.



(** Encoding a run of catalog paths that all encode: the loop ends, has
    written to those paths only, and has touched no other path. *)
Lemma encode_prefix (E : env) (src_img : string) (pre : list string)
    (s : six) (w : world) :
  (∀ i p f, p ∈ pre → files src_img !! i = Some p →
     agrees_outside (files src_img) f (fs w) →
     encode_returns E src_img p (command_at i) f) →
  (∀ p, p ∈ pre → p ∈ files src_img) →
  ∃ s' w' (new : list event),
    for_each pre (by_slot src_img (encode_at E src_img)) s w = (Ok s', w')
    ∧ trace w' = (trace w ++ new)%list
    ∧ (∀ ev, ev ∈ new → ∀ p, writes_to [p] ev → p ∈ pre)
    ∧ (∀ p, p ∉ pre → fs w' !! p = fs w !! p).
Proof.
  intros Hret Hsub.
  set (I := λ (_ : six) (w' : world), ∃ new : list event,
    trace w' = (trace w ++ new)%list
    ∧ (∀ ev, ev ∈ new → ∀ p, writes_to [p] ev → p ∈ pre)
    ∧ (∀ p, p ∉ pre → fs w' !! p = fs w !! p)).
  assert (I s w) as Hstart.
  { exists []. rewrite app_nil_r. split; [done |]. split; [| done].
    by intros ev ?%elem_of_nil. }
  assert (∀ x s1 w1, x ∈ pre → I s1 w1 →
    match by_slot src_img (encode_at E src_img) x s1 w1 with
    | (Ok s', w') => I s' w'
    | (Raise _, _) => False
    end) as Hbody.
  { intros x s1 w1 Hx (new & Htr & Hev & Hfs). unfold by_slot.
    destruct (slot_of src_img x) as [j|] eqn:Hj; [| by exists new].
    apply slot_of_sound in Hj.
    assert (agrees_outside (files src_img) (fs w1) (fs w)) as Hagree.
    { intros p Hp. apply Hfs. intros Hin. apply Hp. by apply Hsub. }
    destruct (encode_at_returns E src_img j x w1 (Hret j x (fs w1) Hx Hj Hagree))
      as (n & dt & Hrun).
    unfold bind. rewrite Hrun. simpl.
    exists (new ++ [GdalOpen src_img; GdalTranslate x src_img (command_at j)])%list.
    rewrite Htr, <- app_assoc. split; [done |]. split.
    - intros ev [Hin | Hin]%elem_of_app; [by apply Hev |].
      apply elem_of_cons in Hin as [-> | Hin]; [done |].
      apply list_elem_of_singleton in Hin as ->. simpl.
      by intros p ->%list_elem_of_singleton.
    - intros p Hp. simpl. rewrite lookup_insert_ne by (intros ->; done).
      by apply Hfs. }
  pose proof (for_each_invariant I (λ _ _, False) pre _ s w Hstart Hbody) as Hinv.
  destruct (for_each pre _ s w) as [[s'|e] w']; [| done].
  destruct Hinv as (new & Hnew). by exists s', w', new.
Qed.







End Encoder.


(** ** The size inspector *)

Module Sizes.
Import Py Os Script Layout Loops Slots Rows Examples.
Import Spec.

Lemma size_at_run (E : env) (i : nat) (file : string) (w : world) :
  size_at E i file w =
    (if stat_ok E (fs w) file
     then Ok (Str (size_si E (st_size_of E (fs w) file)))
     else Raise (stat_error E file),
     logged w [Getsize file]).
Proof.
  unfold size_at, getsize, stat_ok, st_size_of, stat_error, bind, emit, get_fs,
    raise, ret, logged. simpl.
  destruct (os_denied E Stat file); simpl; [done |].
  by destruct (fs w !! file) as [[n|]|].
Qed.

(** Sizing a run of paths whose catalog members can all be sized. *)
Lemma size_prefix (E : env) (src_img : string) (pre : list string)
    (s : six) (w : world) :
  (∀ p, p ∈ pre → p ∈ files src_img → stat_ok E (fs w) p = true) →
  ∃ s', for_each pre (by_slot src_img (size_at E)) s w =
          (Ok s', logged w (Getsize <$> inspected src_img pre)).
Proof.
  revert s w. induction pre as [|x pre IH]; intros s w Hok; simpl.
  { exists s. by rewrite logged_nil. }
  unfold bind, by_slot at 1, inspected.
  destruct (slot_of src_img x) as [j|] eqn:Hj.
  - apply slot_of_sound in Hj.
    assert (x ∈ files src_img) as Hx by (eapply list_elem_of_lookup_2, Hj).
    unfold bind. rewrite size_at_run, (Hok x ltac:(left) Hx). simpl.
    destruct (IH (set_slot j (Str (size_si E (st_size_of E (fs w) x))) s)
                (logged w [Getsize x])) as [s' Hs'].
    { intros p Hp. apply Hok. by right. }
    exists s'. rewrite Hs', logged_logged.
    by rewrite filter_cons_True.
  - apply slot_of_None in Hj. simpl.
    destruct (IH s w) as [s' Hs']. { intros p Hp. apply Hok. by right. }
    exists s'. unfold ret. rewrite Hs'. by rewrite filter_cons_False.
Qed.

(** C4, amended. [calculate_file_size] is all or nothing. When every
    catalog path of the list exists and may be read, it returns a row in
    which each listed catalog path has its size, formatted by the base-1000
    formatter, at its catalog position. When one of them is missing or
    may not be read, the error is not caught for that item: the function's
    one handler catches it, prints the failure and returns [None], and the
    paths after it are not inspected. *)
Theorem size_row_all_or_nothing (E : env) (src_img : string)
    (in_files : list string) (w : world) :
  ((∀ p, p ∈ in_files → p ∈ files src_img → stat_ok E (fs w) p = true) →
   ∃ l, calculate_file_size E src_img in_files w =
          (Ok (Some l),
           logged w ([Print (Begin "calculate_file_size")]
                     ++ (Getsize <$> inspected src_img in_files)
                     ++ [Print (Success "calculate_file_size")]))
        ∧ aligned src_img in_files
            (λ file c, c = Str (size_si E (st_size_of E (fs w) file))) l)
  ∧ (∀ pre p post,
       in_files = pre ++ p :: post →
       (∀ p', p' ∈ pre → p' ∈ files src_img → stat_ok E (fs w) p' = true) →
       p ∈ files src_img →
       stat_ok E (fs w) p = false →
       calculate_file_size E src_img in_files w =
         (Ok None,
          logged w ([Print (Begin "calculate_file_size")]
                    ++ (Getsize <$> inspected src_img pre)
                    ++ [Getsize p;
                        Print (Fail "calculate_file_size" (stat_error E p))]))).
Proof.
  split.
  - intros Hok. rewrite calculate_file_size_stage.
    destruct (stage_by_slot src_img "calculate_file_size" (size_at E)
                (λ w', fs w' = fs w)
                (λ file c, c = Str (size_si E (st_size_of E (fs w) file)))
                in_files w) as (r & w' & Hrun & Hr).
    { intros i file w1 Hw1 Hi. rewrite size_at_run.
      destruct (stat_ok E (fs w1) file); [| done].
      split; [done |]. by rewrite Hw1. }
    { done. }
    rewrite stage_run in Hrun.
    destruct (size_prefix E src_img in_files declared
                (logged w [Print (Begin "calculate_file_size")]) Hok)
      as [s' Hs'].
    rewrite Hs' in Hrun. injection Hrun as <- <-.
    destruct Hr as [Hal _]. exists (listed s').
    rewrite stage_run, Hs', !logged_logged. done.
  - intros pre p post -> Hpre Hp Hbad.
    rewrite calculate_file_size_stage, stage_run, for_each_app.
    destruct (size_prefix E src_img pre declared
                (logged w [Print (Begin "calculate_file_size")]) Hpre)
      as [s' ->].
    simpl. unfold bind, by_slot.
    apply list_elem_of_lookup in Hp as [j Hj].
    rewrite (slot_of_complete _ _ _ Hj). unfold bind.
    rewrite size_at_run. simpl. rewrite Hbad.
    by rewrite !logged_logged.
Qed.

End Sizes.


(** ** The three rows *)

Module Table.
Import Py Os Script Layout Loops Slots Rows Encoder Sizes Examples.
Import Spec.



Lemma size_row_all_or_nothing_witness :
  (∃ l, calculate_file_size engine_ok lone_source (files lone_source)
          w_only_scratch =
          (Ok (Some l),
           logged w_only_scratch
             ([Print (Begin "calculate_file_size")]
              ++ (Getsize <$> inspected lone_source (files lone_source))
              ++ [Print (Success "calculate_file_size")]))
        ∧ aligned lone_source (files lone_source)
            (λ file c,
               c = Str (hurry_size_si (st_size_of engine_ok fs_only_scratch file)))
            l)
  ∧ calculate_file_size engine_ok source (files source) w_packbits_missing =
      (Ok None,
       logged w_packbits_missing
         ([Print (Begin "calculate_file_size")]
          ++ (Getsize <$> inspected source [uncompressed source])
          ++ [Getsize (packbits source);
              Print (Fail "calculate_file_size"
                       (stat_error engine_ok (packbits source)))])).
Proof.
  split.
  - apply (proj1 (size_row_all_or_nothing engine_ok lone_source
                    (files lone_source) w_only_scratch)).
    intros p Hp _. revert p Hp. apply list.Forall_forall.
    apply (bool_decide_unpack _). by vm_compute.
  - apply (proj2 (size_row_all_or_nothing engine_ok source
                    (files source) w_packbits_missing)
             [uncompressed source] (packbits source)
             [deflate_1 source; deflate_2 source; lzw_1 source; lzw_2 source]).
    + reflexivity.
    + intros p' ->%list_elem_of_singleton _. by vm_compute.
    + apply (bool_decide_unpack _). by vm_compute.
    + by vm_compute.
Defined.

(** C4, as stated, fails. The first artifact exists and the second is
    missing: the inspector returns [None], not a row with the size of the
    first and a sentinel for the second, and it never looks at the four
    artifacts that follow, which all exist. *)
Lemma missing_artifact_counterexample :
  fs_packbits_missing !! uncompressed source = Some (File 5000%N)
  ∧ fs_packbits_missing !! packbits source = None
  ∧ Forall (λ p, is_Some (fs_packbits_missing !! p))
      [deflate_1 source; deflate_2 source; lzw_1 source; lzw_2 source]
  ∧ calculate_file_size engine_ok source (files source) w_packbits_missing =
      (Ok None,
       World fs_packbits_missing 100
         [Print (Begin "calculate_file_size");
          Getsize (uncompressed source);
          Getsize (packbits source);
          Print (Fail "calculate_file_size"
                   (FileNotFoundError (packbits source)))])
  ∧ ¬ ∃ w', calculate_file_size engine_ok source (files source)
              w_packbits_missing =
              (Ok (Some [Str "5K"; sentinel; Str "1K"; Str "1K"; Str "1K"; Str "1K"]),
               w').
Proof.
  split; [by vm_compute |]. split; [by vm_compute |].
  split; [apply (bool_decide_unpack _); by vm_compute |].
  split; [by vm_compute |].
  intros [w' Hrun].
  assert ((calculate_file_size engine_ok source (files source)
             w_packbits_missing).1 = Ok None) as Hnone by (by vm_compute).
  rewrite Hrun in Hnone. discriminate Hnone.
Qed.




(** A run in which nothing fails: three rows of six cells reach the
    table, and the file system ends as it began. *)
Example full_run :
  (script engine_ok source w_fresh).1 = Ok tt
  ∧ fs (script engine_ok source w_fresh).2 = fs_fresh
  ∧ DataFrame
      [Some [Str "1K"; Str "1K"; Str "1K"; Str "1K"; Str "1K"; Str "1K"];
       Some [Seconds 5; Seconds 5; Seconds 5; Seconds 5; Seconds 5; Seconds 5];
       Some [Seconds 3; Seconds 3; Seconds 3; Seconds 3; Seconds 3; Seconds 3]]
      rows columns
    ∈ trace (script engine_ok source w_fresh).2.
Proof.
  split; [by vm_compute |]. split; [by vm_compute |].
  apply list_elem_of_In. vm_compute.
  repeat first [left; reflexivity | right].
Qed.

End Table.


(** ** Teardown *)

Module Teardown.
Import Path PathFacts Py Os Script Layout Loops Pipeline Examples.
Import Spec.

Lemma remove_run (E : env) (p : string) (w : world) :
  remove E p w =
    if unlink_ok E (fs w) p
    then (Ok tt, World (delete p (fs w)) (now w) (trace w ++ [Remove p]))
    else (Raise (unlink_error E (fs w) p), logged w [Remove p]).
Proof.
  unfold remove, unlink_ok, unlink_error, bind, emit, get_fs, put_fs, raise,
    logged. simpl.
  destruct (os_denied E Unlink p); simpl; [done |].
  by destruct (fs w !! p) as [[n|]|].
Qed.

Lemma delete_all_lookup_ne (ps : list string) (f : gmap string node) (p : string) :
  p ∉ ps → delete_all ps f !! p = f !! p.
Proof.
  revert f. induction ps as [|x ps IH]; intros f Hp; simpl; [done |].
  apply not_elem_of_cons in Hp as [Hne Hp].
  rewrite IH by done. by apply lookup_delete_ne.
Qed.

(** Deleting a run of different paths that can all be deleted. *)
Lemma remove_prefix (E : env) (pre : list string) (w : world) :
  NoDup pre →
  (∀ p, p ∈ pre → unlink_ok E (fs w) p = true) →
  for_each pre (λ file _, remove E file) tt w =
    (Ok tt, World (delete_all pre (fs w)) (now w) (trace w ++ (Remove <$> pre))).
Proof.
  revert w. induction pre as [|x pre IH]; intros w Hnd Hok; simpl.
  { unfold ret. destruct w. simpl. by rewrite app_nil_r. }
  apply NoDup_cons in Hnd as [Hx Hnd].
  unfold bind. rewrite remove_run, (Hok x ltac:(left)).
  rewrite IH; simpl; [by rewrite <- app_assoc | done |].
  intros p Hp. unfold unlink_ok in *. simpl.
  rewrite lookup_delete_ne by (intros ->; done). apply Hok. by right.
Qed.

(** C3, amended. When deleting one artifact errors during teardown, the
    artifacts before it having been deleted, [remove_directory] catches
    the error in its one handler, prints it and returns, so the run does
    not fail. The teardown stops there: the artifacts listed after the
    failing one are not deleted, nor is their deletion attempted, and
    the removal of the scratch directory is not attempted either. *)
Theorem failed_delete_stops_teardown (E : env) (pre : list string)
    (file : string) (post : list string) (delete_directory : string)
    (w : world) :
  NoDup pre →
  (∀ p, p ∈ pre → unlink_ok E (fs w) p = true) →
  file ∉ pre →
  unlink_ok E (fs w) file = false →
  remove_directory E (pre ++ file :: post) delete_directory w =
    (Ok tt,
     World (delete_all pre (fs w)) (now w)
       (trace w
        ++ [Print (Begin "remove_directory")]
        ++ (Remove <$> pre)
        ++ [Remove file;
            Print (Fail "remove_directory" (unlink_error E (fs w) file))]))
  ∧ ∀ p, p ∉ pre → delete_all pre (fs w) !! p = fs w !! p.
Proof.
  intros Hnd Hok Hfile Hbad. split; [| intros p; apply delete_all_lookup_ne].
  rewrite remove_directory_run, for_each_app.
  rewrite remove_prefix by done. simpl. unfold bind. rewrite remove_run. simpl.
  assert (unlink_ok E (delete_all pre (fs w)) file = false) as ->.
  { unfold unlink_ok in *. by rewrite delete_all_lookup_ne. }
  assert (unlink_error E (delete_all pre (fs w)) file
          = unlink_error E (fs w) file) as ->.
  { unfold unlink_error. by rewrite delete_all_lookup_ne. }
  unfold logged. simpl. by rewrite <- !app_assoc.
Qed.

Lemma failed_delete_stops_teardown_witness :
  remove_directory engine_ok
    ([uncompressed source] ++ packbits source
       :: [deflate_1 source; deflate_2 source; lzw_1 source; lzw_2 source])
    (tmp_dir source) w_packbits_missing =
    (Ok tt,
     World (delete_all [uncompressed source] (fs w_packbits_missing))
       (now w_packbits_missing)
       (trace w_packbits_missing
        ++ [Print (Begin "remove_directory")]
        ++ (Remove <$> [uncompressed source])
        ++ [Remove (packbits source);
            Print (Fail "remove_directory"
                     (unlink_error engine_ok (fs w_packbits_missing)
                        (packbits source)))]))
  ∧ ∀ p, p ∉ [uncompressed source] →
      delete_all [uncompressed source] (fs w_packbits_missing) !! p
      = fs w_packbits_missing !! p.
Proof.
  apply (failed_delete_stops_teardown engine_ok [uncompressed source]
           (packbits source)
           [deflate_1 source; deflate_2 source; lzw_1 source; lzw_2 source]
           (tmp_dir source) w_packbits_missing).
  - apply (bool_decide_unpack _). by vm_compute.
  - intros p ->%list_elem_of_singleton. by vm_compute.
  - apply (bool_decide_unpack _). by vm_compute.
  - by vm_compute.
Defined.

(** C3, as stated, fails. The second artifact cannot be deleted (it is
    not there); the four artifacts after it are still there when
    [remove_directory] returns, no deletion of theirs was attempted, and
    no removal of the scratch directory was attempted: it is still there. *)
Lemma failed_delete_counterexample :
  let after := remove_directory engine_ok (files source) (tmp_dir source)
                 w_packbits_missing in
  after =
    (Ok tt,
     World (delete (uncompressed source) fs_packbits_missing) 100
       [Print (Begin "remove_directory");
        Remove (uncompressed source);
        Remove (packbits source);
        Print (Fail "remove_directory" (FileNotFoundError (packbits source)))])
  ∧ Forall (λ p, is_Some (fs after.2 !! p))
      [deflate_1 source; deflate_2 source; lzw_1 source; lzw_2 source]
  ∧ fs after.2 !! tmp_dir source = Some Dir
  ∧ Forall (λ p, Remove p ∉ trace after.2)
      [deflate_1 source; deflate_2 source; lzw_1 source; lzw_2 source]
  ∧ Rmdir (tmp_dir source) ∉ trace after.2.
Proof.
  assert (remove_directory engine_ok (files source) (tmp_dir source)
            w_packbits_missing =
    (Ok tt,
     World (delete (uncompressed source) fs_packbits_missing) 100
       [Print (Begin "remove_directory");
        Remove (uncompressed source);
        Remove (packbits source);
        Print (Fail "remove_directory" (FileNotFoundError (packbits source)))]))
    as Hrun by (by vm_compute).
  intros after. subst after. rewrite Hrun. simpl.
  split; [done |].
  split; [apply (bool_decide_unpack _); by vm_compute |].
  split; [by vm_compute |].
  split.
  - repeat (apply Forall_cons; split);
      [intros Hin; apply list_elem_of_In in Hin; vm_compute in Hin;
       repeat destruct Hin as [Hin | Hin]; done ..| apply Forall_nil_2].
  - intros Hin. apply list_elem_of_In in Hin. vm_compute in Hin.
    repeat destruct Hin as [Hin | Hin]; done.
Qed.

End Teardown.


(** ** Removing the scratch directory and the directories above it *)

Module Ancestors.
Import Path PathFacts Py Os Script Layout Loops Pipeline Teardown Examples.
Import Spec.

Lemma length_append (a b : string) :
  String.length (a +:+ b) = String.length a + String.length b.
Proof. induction a as [|c a IH]; simpl; [done | by rewrite IH]. Qed.

Lemma cut_append (p : string) : (cut p).1 +:+ (cut p).2 = p.
Proof.
  induction p as [|c p IH]; simpl; [done |].
  destruct (has_sep p); simpl; [by rewrite IH |].
  by destruct (is_sep c).
Qed.

Lemma rstrip_sep_length (p : string) :
  (String.length (rstrip_sep p) ≤ String.length p)%nat.
Proof.
  induction p as [|c p IH]; simpl; [done |].
  destruct (rstrip_sep p); [destruct (is_sep c) |]; simpl in *; lia.
Qed.

Lemma strip_head_length (h : string) :
  (String.length (strip_head h) ≤ String.length h)%nat.
Proof.
  unfold strip_head. pose proof (rstrip_sep_length h) as Hle.
  by destruct (rstrip_sep h).
Qed.

(** The head of a split is shorter than the path when there is a tail:
    climbing towards the root ends. *)
Lemma split_head_shorter (p : string) :
  (split p).2 ≠ "" → (String.length (split p).1 < String.length p)%nat.
Proof.
  unfold split. simpl. intros Htail.
  pose proof (strip_head_length (cut p).1) as Hle.
  pose proof (f_equal String.length (cut_append p)) as Hlen.
  rewrite length_append in Hlen.
  destruct (cut p).2 as [|c t]; [done |]. simpl in Hlen. lia.
Qed.

Lemma split_head_le (p : string) :
  (String.length (split p).1 ≤ String.length p)%nat.
Proof.
  unfold split. simpl.
  pose proof (strip_head_length (cut p).1) as Hle.
  pose proof (f_equal String.length (cut_append p)) as Hlen.
  rewrite length_append in Hlen. lia.
Qed.

Lemma rmdir_run (E : env) (p : string) (w : world) :
  if rmdir_ok E (fs w) p
  then rmdir E p w =
         (Ok tt, World (delete p (fs w)) (now w) (trace w ++ [Rmdir p]))
  else ∃ e, is_OSError e = true
            ∧ rmdir E p w = (Raise e, logged w [Rmdir p]).
Proof.
  unfold rmdir, rmdir_ok, bind, emit, get_fs, put_fs, raise, logged. simpl.
  destruct (os_denied E SysRmdir p); simpl;
    [eexists; split; [| reflexivity]; reflexivity |].
  destruct (fs w !! p) as [[n|]|];
    [eexists; split; [| reflexivity]; reflexivity | |
     eexists; split; [| reflexivity]; reflexivity].
  destruct (is_root p); simpl;
    [eexists; split; [| reflexivity]; reflexivity |].
  destruct (is_empty_dir p (fs w)); simpl;
    [reflexivity | eexists; split; [| reflexivity]; reflexivity].
Qed.

(** The loop of [removedirs] never raises, only deletes, and only adds
    to the trace. *)
Lemma removedirs_loop_returns (E : env) (fuel : nat) (head tail : string)
    (w : world) :
  ∃ w', removedirs_loop E fuel head tail w = (Ok tt, w')
    ∧ (∀ p, fs w !! p = None → fs w' !! p = None)
    ∧ (∀ ev, ev ∈ trace w → ev ∈ trace w').
Proof.
  revert head tail w. induction fuel as [|fuel IH]; intros head tail w; simpl.
  { destruct (_ && _); by exists w. }
  destruct (_ && _); [| by exists w].
  unfold bind, try_except_OSError, ret.
  pose proof (rmdir_run E head w) as Hrm.
  destruct (rmdir_ok E (fs w) head).
  - rewrite Hrm.
    destruct (IH (split head).1 (split head).2
                (World (delete head (fs w)) (now w) (trace w ++ [Rmdir head])))
      as (w' & Hrun & Hfs & Htr).
    exists w'. split; [done |]. split.
    + intros p Hp. apply Hfs. simpl.
      destruct (decide (head = p)) as [-> | Hne];
        [apply lookup_delete_eq | by rewrite lookup_delete_ne].
    + intros ev Hev. apply Htr. simpl. apply elem_of_app. by left.
  - destruct Hrm as (e & He & ->). rewrite He. eexists. split; [done |].
    split; [done |]. intros ev Hev. simpl. apply elem_of_app. by left.
Qed.

Lemma climbs_length (head tail : string) (chain : list string) :
  climbs head tail chain → (length chain ≤ String.length head)%nat.
Proof.
  revert head tail. induction chain as [|a rest IH]; intros head tail; simpl.
  { lia. }
  intros (_ & Hhead & _ & Hrest).
  destruct rest as [|b rest'].
  { destruct head; [done | simpl; lia]. }
  pose proof (IH _ _ Hrest) as Hlen.
  destruct Hrest as (_ & _ & Htail & _).
  pose proof (split_head_shorter head Htail). simpl in *. lia.
Qed.

(** The loop removes every directory of a removable chain. *)
Lemma removedirs_loop_chain (E : env) (chain : list string) (fuel : nat)
    (head tail : string) (w : world) :
  (length chain ≤ fuel)%nat →
  climbs head tail chain →
  removable E (fs w) chain →
  ∃ w', removedirs_loop E fuel head tail w = (Ok tt, w')
    ∧ (∀ p, fs w !! p = None → fs w' !! p = None)
    ∧ (∀ ev, ev ∈ trace w → ev ∈ trace w')
    ∧ ∀ a, a ∈ chain → fs w' !! a = None ∧ Rmdir a ∈ trace w'.
Proof.
  revert fuel head tail w.
  induction chain as [|a rest IH]; intros fuel head tail w Hfuel Hclimb Hrem.
  { destruct (removedirs_loop_returns E fuel head tail w) as (w' & ? & ? & ?).
    exists w'. repeat (split; [done |]). by intros a ?%elem_of_nil. }
  destruct fuel as [|fuel]; [simpl in Hfuel; lia |].
  destruct Hclimb as (-> & Hhead & Htail & Hclimb).
  destruct Hrem as [Hok Hrem]. simpl.
  rewrite !bool_decide_eq_true_2 by done. simpl.
  unfold bind, try_except_OSError, ret.
  pose proof (rmdir_run E head w) as Hrm. rewrite Hok in Hrm. rewrite Hrm.
  destruct (IH fuel (split head).1 (split head).2
              (World (delete head (fs w)) (now w) (trace w ++ [Rmdir head])))
    as (w' & Hrun & Hfs & Htr & Hall); [simpl in Hfuel; lia | done | done |].
  exists w'. split; [done |].
  assert (fs w' !! head = None ∧ Rmdir head ∈ trace w') as Hhere.
  { split.
    - apply Hfs. simpl. apply lookup_delete_eq.
    - apply Htr. simpl. apply elem_of_app. right. by left. }
  split; [| split].
  - intros p Hp. apply Hfs. simpl.
    destruct (decide (head = p)) as [-> | Hne];
      [apply lookup_delete_eq | by rewrite lookup_delete_ne].
  - intros ev Hev. apply Htr. simpl. apply elem_of_app. by left.
  - intros a [-> | Ha]%elem_of_cons; [done | by apply Hall].
Qed.

Lemma split_again_head_le (d : string) :
  (String.length (split_again (split d)).1 ≤ String.length d)%nat.
Proof.
  unfold split_again. pose proof (split_head_le d) as Hd.
  case_bool_decide; [| done].
  pose proof (split_head_le (split d).1) as Hh. lia.
Qed.

(** C10. Teardown removes more than the scratch directory. Once the
    artifacts are deleted, [remove_directory] calls [os.removedirs] on
    the directory it is given: the directory itself is removed, and then
    every directory above it that is empty by then, one after the other
    -- for the scratch directory, first of all the directory of the
    source image when nothing else is left in it. *)
Theorem teardown_removes_empty_ancestors (E : env) (in_files : list string)
    (delete_directory : string) (chain : list string) (w : world) :
  NoDup in_files →
  (∀ p, p ∈ in_files → unlink_ok E (fs w) p = true) →
  rmdir_ok E (delete_all in_files (fs w)) delete_directory = true →
  climbs (split_again (split delete_directory)).1
         (split_again (split delete_directory)).2 chain →
  removable E (delete delete_directory (delete_all in_files (fs w))) chain →
  ∃ w', remove_directory E in_files delete_directory w = (Ok tt, w')
    ∧ fs w' !! delete_directory = None
    ∧ ∀ a, a ∈ chain → fs w' !! a = None ∧ Rmdir a ∈ trace w'.
Proof.
  intros Hnd Hok Hdir Hclimb Hrem.
  rewrite remove_directory_run, remove_prefix by done.
  unfold removedirs, bind, logged. cbn [fs now trace].
  match goal with |- context [rmdir E delete_directory ?w1] =>
    pose proof (rmdir_run E delete_directory w1) as Hrm end.
  cbn [fs now trace] in Hrm. rewrite Hdir in Hrm. rewrite Hrm. clear Hrm.
  destruct (split_again (split delete_directory)) as [head tail] eqn:Hsplit.
  simpl in Hclimb.
  match goal with |- context [removedirs_loop E ?fuel head tail ?w2] =>
    destruct (removedirs_loop_chain E chain fuel head tail w2)
      as (w' & Hrun & Hfs & Htr & Hall) end.
  - pose proof (climbs_length _ _ _ Hclimb) as Hlen.
    pose proof (split_again_head_le delete_directory) as Hle.
    rewrite Hsplit in Hle. simpl in Hle. lia.
  - done.
  - done.
  - rewrite Hrun. eexists. split; [done |]. simpl. split.
    + apply Hfs. simpl. apply lookup_delete_eq.
    + intros a Ha. destruct (Hall a Ha) as [Hgone Hev].
      split; [done |]. apply elem_of_app. by left.
Qed.

Lemma teardown_removes_empty_ancestors_witness :
  ∃ w', remove_directory engine_ok (files lone_source) (tmp_dir lone_source)
          w_only_scratch = (Ok tt, w')
    ∧ fs w' !! tmp_dir lone_source = None
    ∧ ∀ a, a ∈ [dirname lone_source; "/data"] →
        fs w' !! a = None ∧ Rmdir a ∈ trace w'.
Proof.
  apply (teardown_removes_empty_ancestors engine_ok (files lone_source)
           (tmp_dir lone_source) [dirname lone_source; "/data"]
           w_only_scratch).
  - apply (bool_decide_unpack _). by vm_compute.
  - apply list.Forall_forall. apply (bool_decide_unpack _). by vm_compute.
  - by vm_compute.
  - by vm_compute.
  - repeat split; by vm_compute.
Defined.

(** The same teardown, run: the directory of the source image and the
    directory above it are gone, and only the root is left. *)
Example teardown_only_scratch :
  remove_directory engine_ok (files lone_source) (tmp_dir lone_source)
    w_only_scratch =
    (Ok tt,
     World {[ "/" := Dir ]} 100
       [Print (Begin "remove_directory");
        Remove (uncompressed lone_source); Remove (packbits lone_source);
        Remove (deflate_1 lone_source); Remove (deflate_2 lone_source);
        Remove (lzw_1 lone_source); Remove (lzw_2 lone_source);
        Rmdir "/data/run/tmp"; Rmdir "/data/run"; Rmdir "/data"; Rmdir "/";
        Print (Success "remove_directory")]).
Proof. by vm_compute. Qed.

End Ancestors.


(** ** The order of the stages *)

Module Order.
Import Py Os Script Layout Loops Pipeline.
Import Spec.
Local Open Scope py_scope.

Lemma emits_ret {A} (P : event → Prop) (a : A) : emits P (ret a).
Proof. intros w. exists []. by rewrite app_nil_r. Qed.

Lemma emits_raise {A} (P : event → Prop) (e : exn) : emits P (@raise A e).
Proof. intros w. exists []. by rewrite app_nil_r. Qed.

Lemma emits_time (P : event → Prop) : emits P time.
Proof. intros w. exists []. by rewrite app_nil_r. Qed.

Lemma emits_get_fs (P : event → Prop) : emits P get_fs.
Proof. intros w. exists []. by rewrite app_nil_r. Qed.

Lemma emits_put_fs (P : event → Prop) (f : gmap string node) : emits P (put_fs f).
Proof. intros w. exists []. simpl. by rewrite app_nil_r. Qed.

Lemma emits_elapse (P : event → Prop) (dt : Z) : emits P (elapse dt).
Proof. intros w. exists []. simpl. by rewrite app_nil_r. Qed.

Lemma emits_emit (P : event → Prop) (ev : event) : P ev → emits P (emit ev).
Proof. intros Hev w. exists [ev]. split; [done | by constructor]. Qed.

Lemma emits_bind {A B} (P : event → Prop) (m : M A) (k : A → M B) :
  emits P m → (∀ a, emits P (k a)) → emits P (bind m k).
Proof.
  intros Hm Hk w. unfold bind. destruct (Hm w) as (t & Ht & HP).
  destruct (m w) as [[a|e] w1]; simpl in *.
  - destruct (Hk a w1) as (t' & Ht' & HP'). exists (t ++ t').
    rewrite Ht', Ht, <- app_assoc. split; [done | by apply Forall_app].
  - by exists t.
Qed.

Lemma emits_try_except {A} (P : event → Prop) (m : M A) (h : exn → M A) :
  emits P m → (∀ e, emits P (h e)) → emits P (try_except m h).
Proof.
  intros Hm Hh w. unfold try_except. destruct (Hm w) as (t & Ht & HP).
  destruct (m w) as [[a|e] w1]; simpl in *.
  - by exists t.
  - destruct (Hh e w1) as (t' & Ht' & HP'). exists (t ++ t').
    rewrite Ht', Ht, <- app_assoc. split; [done | by apply Forall_app].
Qed.

Lemma emits_try_except_OSError {A} (P : event → Prop) (m h : M A) :
  emits P m → emits P h → emits P (try_except_OSError m h).
Proof.
  intros Hm Hh w. unfold try_except_OSError. destruct (Hm w) as (t & Ht & HP).
  destruct (m w) as [[a|e] w1]; simpl in *.
  - by exists t.
  - destruct (is_OSError e); [| by exists t].
    destruct (Hh w1) as (t' & Ht' & HP'). exists (t ++ t').
    rewrite Ht', Ht, <- app_assoc. split; [done | by apply Forall_app].
Qed.

Lemma emits_for_each {A S} (P : event → Prop) (xs : list A)
    (body : A → S → M S) (s : S) :
  (∀ x s, emits P (body x s)) → emits P (for_each xs body s).
Proof.
  intros Hbody. revert s. induction xs as [|x xs IH]; intros s; simpl.
  - apply emits_ret.
  - apply emits_bind; [apply Hbody | apply IH].
Qed.

(** Splits a computation into its calls. *)
Ltac emits_steps :=
  repeat first
    [ apply emits_ret | apply emits_raise | apply emits_time
    | apply emits_get_fs | apply emits_put_fs | apply emits_elapse
    | apply emits_emit; reflexivity
    | apply emits_bind; [| intros ?]
    | apply emits_for_each; intros ? ?
    | apply emits_try_except; [| intros ?]
    | apply emits_try_except_OSError ].





Lemma emits_rmdir (E : env) (p : string) : emits (in_phase Cleanup) (rmdir E p).
Proof.
  unfold rmdir, in_phase. emits_steps.
  repeat match goal with
         | |- emits _ (match ?x with _ => _ end) => destruct x
         | |- emits _ (if ?x then _ else _) => destruct x
         end; emits_steps.
Qed.

Lemma emits_removedirs_loop (E : env) (fuel : nat) (head tail : string) :
  emits (in_phase Cleanup) (removedirs_loop E fuel head tail).
Proof.
  revert head tail. induction fuel as [|fuel IH]; intros head tail; simpl.
  { destruct (_ && _); apply emits_ret. }
  destruct (_ && _); [| apply emits_ret].
  apply emits_bind.
  - apply emits_try_except_OSError; [| apply emits_ret].
    apply emits_bind; [apply emits_rmdir | intros ?; apply emits_ret].
  - intros [|]; [apply IH | apply emits_ret].
Qed.









End Order.


(** ** The recursion bounds of [makedirs] and [removedirs] are never reached *)

Module Fuel.
Import Path PathFacts Py Os Ancestors.
Import Spec.

Lemma split_again_head_shorter (name : string) :
  (split_again (split name)).2 ≠ "" →
  (String.length (split_again (split name)).1 < String.length name)%nat.
Proof.
  unfold split_again. case_bool_decide as Htail; intros Hne.
  - pose proof (split_head_shorter (split name).1 Hne) as Hlt.
    pose proof (split_head_le name) as Hle. lia.
  - by apply split_head_shorter.
Qed.

(** With at least as much fuel as the name is long, [makedirs] does not
    depend on the fuel: the bound is never what stops the recursion. *)
Lemma makedirs_rec_fuel (E : env) (fuel fuel' : nat) (name : string) (w : world) :
  (String.length name ≤ fuel)%nat →
  (String.length name ≤ fuel')%nat →
  makedirs_rec E fuel name w = makedirs_rec E fuel' name w.
Proof.
  revert fuel' name w.
  induction fuel as [|fuel IH]; intros fuel' name w Hfuel Hfuel'.
  - destruct name; [| simpl in Hfuel; lia]. by destruct fuel'.
  - destruct fuel' as [|fuel'].
    { destruct name; [| simpl in Hfuel'; lia]. reflexivity. }
    simpl. pose proof (split_again_head_shorter name) as Hshort.
    destruct (split_again (split name)) as [head tail]. simpl in Hshort.
    unfold bind at 1 3. simpl.
    destruct (bool_decide (head ≠ "") && bool_decide (tail ≠ "")
              && negb (bool_decide (is_Some (fs w !! head)))) eqn:Hcond;
      [| done].
    apply andb_prop in Hcond as [Hcond _].
    apply andb_prop in Hcond as [_ Htail%bool_decide_eq_true_1].
    specialize (Hshort Htail).
    unfold bind, try_except.
    rewrite (IH fuel' head w) by lia. done.
Qed.

(** The same for the loop of [removedirs]. *)
Lemma removedirs_loop_fuel (E : env) (fuel fuel' : nat) (head tail : string)
    (w : world) :
  (tail ≠ "" → String.length head < fuel)%nat →
  (tail ≠ "" → String.length head < fuel')%nat →
  removedirs_loop E fuel head tail w = removedirs_loop E fuel' head tail w.
Proof.
  revert fuel' head tail w.
  induction fuel as [|fuel IH]; intros fuel' head tail w Hfuel Hfuel'.
  - simpl. destruct (bool_decide (tail ≠ "")) eqn:Htail.
    + apply bool_decide_eq_true_1 in Htail. specialize (Hfuel Htail). lia.
    + rewrite andb_false_r. destruct fuel'; simpl; by rewrite Htail, andb_false_r.
  - destruct fuel' as [|fuel'].
    { simpl. destruct (bool_decide (tail ≠ "")) eqn:Htail.
      - apply bool_decide_eq_true_1 in Htail. specialize (Hfuel' Htail). lia.
      - by rewrite andb_false_r. }
    simpl. destruct (bool_decide (head ≠ "") && bool_decide (tail ≠ "")) eqn:Hc;
      [| done].
    apply andb_prop in Hc as [_ Htail%bool_decide_eq_true_1].
    specialize (Hfuel Htail). specialize (Hfuel' Htail).
    unfold bind.
    destruct (try_except_OSError _ _ w) as [[[|]|e] w1]; [| done | done].
    apply IH; intros Hne; pose proof (split_head_shorter head Hne) as Hs;
      unfold split in Hs; simpl in Hs; lia.
Qed.

Lemma makedirs_fuel_enough (E : env) (n : nat) (name : string) (w : world) :
  (String.length name ≤ n)%nat →
  makedirs_rec E n name w = makedirs E name w.
Proof. intros Hn. unfold makedirs. by apply makedirs_rec_fuel. Qed.

Lemma removedirs_fuel_enough (E : env) (n : nat) (name : string) (w : world) :
  (String.length name ≤ n)%nat →
  removedirs_loop E n (split_again (split name)).1 (split_again (split name)).2 w
  = removedirs_loop E (String.length name)
      (split_again (split name)).1 (split_again (split name)).2 w.
Proof.
  intros Hn. pose proof (split_again_head_shorter name) as Hshort.
  apply removedirs_loop_fuel; intros Hne; specialize (Hshort Hne); lia.
Qed.

End Fuel.


(** ** What each function may change in the file system *)

Module Frames.
Import Path PathFacts Py Os Script Layout Loops Pipeline Ancestors.
Import Spec.

Section Composing.
Context (R : relation (gmap string node)) `{!PreOrder R}.

Lemma changes_ret {A} (a : A) : changes_by R (ret a).
Proof. intros w. simpl. reflexivity. Qed.

Lemma changes_raise {A} (e : exn) : changes_by R (@raise A e).
Proof. intros w. simpl. reflexivity. Qed.

Lemma changes_time : changes_by R time.
Proof. intros w. simpl. reflexivity. Qed.

Lemma changes_emit (ev : event) : changes_by R (emit ev).
Proof. intros w. simpl. reflexivity. Qed.

Lemma changes_elapse (dt : Z) : changes_by R (elapse dt).
Proof. intros w. simpl. reflexivity. Qed.

Lemma changes_bind {A B} (m : M A) (k : A → M B) :
  changes_by R m → (∀ a, changes_by R (k a)) → changes_by R (bind m k).
Proof.
  intros Hm Hk w. unfold bind. pose proof (Hm w) as H1.
  destruct (m w) as [[a|e] w1]; simpl in *; [| done].
  etrans; [exact H1 | apply Hk].
Qed.

Lemma changes_try_except {A} (m : M A) (h : exn → M A) :
  changes_by R m → (∀ e, changes_by R (h e)) → changes_by R (try_except m h).
Proof.
  intros Hm Hh w. unfold try_except. pose proof (Hm w) as H1.
  destruct (m w) as [[a|e] w1]; simpl in *; [done |].
  etrans; [exact H1 | apply Hh].
Qed.

Lemma changes_try_except_OSError {A} (m h : M A) :
  changes_by R m → changes_by R h → changes_by R (try_except_OSError m h).
Proof.
  intros Hm Hh w. unfold try_except_OSError. pose proof (Hm w) as H1.
  destruct (m w) as [[a|e] w1]; simpl in *; [done |].
  destruct (is_OSError e); [| done].
  etrans; [exact H1 | apply Hh].
Qed.

Lemma changes_get_fs : changes_by R get_fs.
Proof. intros w. simpl. reflexivity. Qed.

Lemma changes_for_each {A S} (xs : list A) (body : A → S → M S) (s : S) :
  (∀ x s, x ∈ xs → changes_by R (body x s)) →
  changes_by R (for_each xs body s).
Proof.
  revert s. induction xs as [|x xs IH]; intros s Hbody; simpl.
  - apply changes_ret.
  - apply changes_bind; [apply Hbody; by left |].
    intros s'. apply IH. intros y s1 Hy. apply Hbody. by right.
Qed.

End Composing.

Lemma changes_weaken {A} (R R' : relation (gmap string node)) (m : M A) :
  (∀ f g, R f g → R' f g) → changes_by R m → changes_by R' m.
Proof. intros Hsub Hm w. apply Hsub, Hm. Qed.

#[local] Instance same_outside_preorder (paths : list string) :
  PreOrder (same_outside paths).
Proof.
  split.
  - by intros f p Hp.
  - intros f g h Hfg Hgh p Hp. unfold same_outside, agrees_outside in *.
    by rewrite Hgh, Hfg.
Qed.

#[local] Instance only_deletes_preorder (paths : list string) :
  PreOrder (only_deletes paths).
Proof.
  split.
  - intros f p. by left.
  - intros f g h Hfg Hgh p.
    destruct (Hgh p) as [Hh | [Hh Hwhy]].
    + destruct (Hfg p) as [Hg | [Hg Hwas]].
      * left. by rewrite Hh.
      * right. split; [by rewrite Hh | done].
    + right. split; [done |].
      destruct Hwhy as [Hin | Hdir]; [by left |].
      destruct (Hfg p) as [Hg | [Hg _]]; [| congruence].
      right. by rewrite <- Hg.
Qed.

#[local] Instance only_adds_dirs_preorder : PreOrder only_adds_dirs.
Proof.
  split.
  - intros f. split; [done | by left].
  - intros f g h [Hfg1 Hfg2] [Hgh1 Hgh2]. split.
    + intros p x Hf. by apply Hgh1, Hfg1.
    + intros p x Hh. destruct (Hgh2 p x Hh) as [Hg | ->]; [| by right].
      by apply Hfg2.
Qed.

(** Splits a computation into its calls, for a reflexive and transitive
    relation on file systems. *)
Ltac changes_steps :=
  repeat match goal with
    | |- changes_by _ (ret _) => solve [apply changes_ret; typeclasses eauto]
    | |- changes_by _ (raise _) => solve [apply changes_raise; typeclasses eauto]
    | |- changes_by _ time => solve [apply changes_time; typeclasses eauto]
    | |- changes_by _ (emit _) => solve [apply changes_emit; typeclasses eauto]
    | |- changes_by _ (elapse _) => solve [apply changes_elapse; typeclasses eauto]
    | |- changes_by _ get_fs => solve [apply changes_get_fs; typeclasses eauto]
    | |- changes_by _ (bind _ _) =>
        apply changes_bind; [typeclasses eauto | | intros ?]
    | |- changes_by _ (try_except _ _) =>
        apply changes_try_except; [typeclasses eauto | | intros ?]
    | |- changes_by _ (try_except_OSError _ _) =>
        apply changes_try_except_OSError; [typeclasses eauto | |]
    | |- changes_by _ (match ?x with _ => _ end) => destruct x
    end.

#[local] Instance writes_only_preorder (allowed : string → Prop) :
  PreOrder (writes_only allowed).
Proof.
  split.
  - intros f p. by left.
  - intros f g h Hfg Hgh p.
    destruct (Hgh p) as [Hh | Hh]; [| by right].
    destruct (Hfg p) as [Hg | [Hp [n Hg]]].
    + left. by rewrite Hh.
    + right. split; [done |]. exists n. by rewrite Hh.
Qed.

#[local] Instance keeps_file_preorder (p : string) : PreOrder (keeps_file p).
Proof.
  split.
  - by intros f n Hf.
  - intros f g h Hfg Hgh n Hf. by apply Hgh, Hfg.
Qed.

(** *** The size inspector, the decoder and the report *)

Lemma size_one_keeps (E : env) (src_img file : string) (s : six) :
  changes_by eq (size_one E src_img file s).
Proof.
  unfold size_one, getsize. repeat case_decide; changes_steps.
Qed.

Lemma read_one_keeps (E : env) (src_img file : string) (s : six) :
  changes_by eq (read_one E src_img file s).
Proof.
  unfold read_one, read_tif. repeat case_decide; changes_steps.
Qed.

Lemma calculate_file_size_keeps (E : env) (src_img : string)
    (in_files : list string) :
  changes_by eq (calculate_file_size E src_img in_files).
Proof.
  unfold calculate_file_size, print. changes_steps.
  apply changes_for_each; [typeclasses eauto |]. intros. apply size_one_keeps.
Qed.

Lemma calculate_read_times_keeps (E : env) (src_img : string)
    (in_files : list string) :
  changes_by eq (calculate_read_times E src_img in_files).
Proof.
  unfold calculate_read_times, print. changes_steps.
  apply changes_for_each; [typeclasses eauto |]. intros. apply read_one_keeps.
Qed.

(** X1. The size inspector, the decoder and the report never change the
    file system, whatever they are given and however they end: no
    artifact is created, deleted or resized by measuring it. *)
Theorem measuring_keeps_files (E : env) (src_img : string)
    (in_files : list string) (sizes writes reads : row)
    (in_rows in_columns : list string) (w : world) :
  fs (calculate_file_size E src_img in_files w).2 = fs w
  ∧ fs (calculate_read_times E src_img in_files w).2 = fs w
  ∧ fs (print_results E sizes writes reads in_rows in_columns w).2 = fs w.
Proof.
  split; [| split]; symmetry.
  - apply calculate_file_size_keeps.
  - apply calculate_read_times_keeps.
  - by rewrite print_results_run.
Qed.

(** *** The encoder *)

Lemma gdal_Open_changes (R : relation (gmap string node)) `{!PreOrder R}
    (E : env) (path : string) :
  changes_by R (gdal_Open E path).
Proof. unfold gdal_Open. changes_steps. Qed.

Lemma gdal_Translate_writes (E : env) (dest src command : string) :
  changes_by (writes_only (λ p, p = dest)) (gdal_Translate E dest src command).
Proof.
  intros w p. unfold gdal_Translate, bind, emit, get_fs, put_fs, elapse, raise.
  simpl. destruct (gdal_translate E dest src command (fs w)) as [[n dt]|e];
    simpl; [| by left].
  destruct (decide (p = dest)) as [-> | Hne].
  - right. split; [done |]. exists n. apply lookup_insert_eq.
  - left. by apply lookup_insert_ne.
Qed.

Lemma encode_one_writes (E : env) (src_img input_image file : string) (s : six) :
  changes_by (writes_only (λ p, p = file ∧ p ∈ files src_img))
    (encode_one E src_img input_image file s).
Proof.
  assert (changes_by (writes_only (λ p, p = file ∧ p ∈ files src_img))
            (by_slot src_img (encode_at E input_image) file s)) as Hslot.
  { unfold by_slot. destruct (slot_of src_img file) as [i|] eqn:Hi;
      [| apply changes_ret; typeclasses eauto].
    apply Slots.slot_of_sound in Hi.
    assert (file ∈ files src_img) as Hin by (eapply list_elem_of_lookup_2, Hi).
    unfold encode_at. changes_steps.
    - apply gdal_Open_changes. typeclasses eauto.
    - eapply changes_weaken; [| apply gdal_Translate_writes].
      intros f g Hfg p. destruct (Hfg p) as [? | [-> ?]]; [by left | by right]. }
  intros w. rewrite Slots.encode_one_by_slot. apply Hslot.
Qed.

Lemma generate_compressed_images_writes (E : env) (src_img : string)
    (in_files : list string) (input_image : string) :
  changes_by (writes_only (λ p, p ∈ files src_img ∧ p ∈ in_files))
    (generate_compressed_images E src_img in_files input_image).
Proof.
  unfold generate_compressed_images, print. changes_steps.
  apply changes_for_each; [typeclasses eauto |]. intros file s Hfile.
  eapply changes_weaken; [| apply encode_one_writes].
  intros f g Hfg p. destruct (Hfg p) as [? | [[-> ?] ?]]; [by left | by right].
Qed.

(** X2. Whatever list and source it is given, and however it ends, the
    encoder leaves every path of the file system as it was, except the
    catalog paths of the list, which it may have turned into regular
    files: it writes its six artifacts and nothing else. *)
Theorem encoder_writes_only_artifacts (E : env) (src_img : string)
    (in_files : list string) (input_image : string) (w : world) (p : string) :
  fs (generate_compressed_images E src_img in_files input_image w).2 !! p
    = fs w !! p
  ∨ (p ∈ files src_img ∧ p ∈ in_files
     ∧ is_file (fs (generate_compressed_images E src_img in_files
                      input_image w).2) p).
Proof.
  destruct (generate_compressed_images_writes E src_img in_files input_image w p)
    as [? | [[? ?] ?]]; [by left | by right].
Qed.

(** *** Teardown *)

Lemma remove_deletes (E : env) (paths : list string) (p : string) :
  p ∈ paths → changes_by (only_deletes paths) (remove E p).
Proof.
  intros Hp w q. rewrite Teardown.remove_run.
  destruct (unlink_ok E (fs w) p); simpl; [| by left].
  destruct (decide (q = p)) as [-> | Hne].
  - right. split; [apply lookup_delete_eq | by left].
  - left. by apply lookup_delete_ne.
Qed.

Lemma rmdir_deletes (E : env) (paths : list string) (p : string) :
  changes_by (only_deletes paths) (rmdir E p).
Proof.
  intros w q. pose proof (rmdir_run E p w) as Hrun.
  destruct (rmdir_ok E (fs w) p) eqn:Hok.
  - rewrite Hrun. simpl. destruct (decide (q = p)) as [-> | Hne].
    + right. split; [apply lookup_delete_eq |]. right.
      unfold rmdir_ok in Hok. apply andb_prop in Hok as [_ Hok].
      by destruct (fs w !! p) as [[n|]|].
    + left. by apply lookup_delete_ne.
  - destruct Hrun as (e & _ & ->). by left.
Qed.

Lemma removedirs_loop_deletes (E : env) (paths : list string) (fuel : nat)
    (head tail : string) :
  changes_by (only_deletes paths) (removedirs_loop E fuel head tail).
Proof.
  revert head tail. induction fuel as [|fuel IH]; intros head tail; simpl.
  { destruct (_ && _); apply changes_ret; typeclasses eauto. }
  destruct (_ && _); [| apply changes_ret; typeclasses eauto].
  changes_steps; [apply rmdir_deletes | apply IH].
Qed.

Lemma remove_directory_deletes (E : env) (in_files : list string)
    (delete_directory : string) :
  changes_by (only_deletes in_files)
    (remove_directory E in_files delete_directory).
Proof.
  unfold remove_directory, removedirs, print. changes_steps.
  - apply changes_for_each; [typeclasses eauto |].
    intros file [] Hfile. by apply remove_deletes.
  - apply rmdir_deletes.
  - apply removedirs_loop_deletes.
Qed.

(** X3. Teardown never creates or alters anything, and deletes nothing
    but the paths it was given and directories: after
    [remove_directory], however it ended, every path is as it was or is
    gone, and a path that is gone was in the list or was a directory. A
    regular file that is not in the list is never lost. *)
Theorem teardown_only_deletes (E : env) (in_files : list string)
    (delete_directory : string) (w : world) (p : string) :
  fs (remove_directory E in_files delete_directory w).2 !! p = fs w !! p
  ∨ (fs (remove_directory E in_files delete_directory w).2 !! p = None
     ∧ (p ∈ in_files ∨ fs w !! p = Some Dir)).
Proof.
  destruct (remove_directory_deletes E in_files delete_directory w p)
    as [Hsame | [Hgone Hwhy]]; [by left | by right].
Qed.

(** *** Start-up *)

Lemma mkdir_adds (E : env) (p : string) : changes_by only_adds_dirs (mkdir E p).
Proof.
  intros w. destruct (Startup.mkdir_outcome E p w) as [[e ->] | [Hnone ->]];
    simpl; [reflexivity |].
  split.
  - intros q x Hq. rewrite lookup_insert_ne; [done |]. intros ->. congruence.
  - intros q x Hq. destruct (decide (p = q)) as [-> | Hne].
    + rewrite lookup_insert_eq in Hq. right. congruence.
    + rewrite lookup_insert_ne in Hq by done. by left.
Qed.

Lemma makedirs_rec_adds (E : env) (fuel : nat) (name : string) :
  changes_by only_adds_dirs (makedirs_rec E fuel name).
Proof.
  revert name. induction fuel as [|fuel IH]; intros name; simpl.
  - destruct (split_again (split name)) as [head tail].
    unfold exists_. changes_steps; apply mkdir_adds.
  - destruct (split_again (split name)) as [head tail].
    unfold exists_. changes_steps; try apply mkdir_adds. apply IH.
Qed.

Lemma prepare_adds (E : env) (src_img : string) :
  changes_by only_adds_dirs (prepare E src_img).
Proof.
  unfold prepare, exists_, makedirs. changes_steps. apply makedirs_rec_adds.
Qed.

(** X4. Start-up never removes or alters an entry of the file system:
    after the module-level code has run, whether [os.makedirs] returned
    or raised, every entry that was there is there unchanged, and every
    entry that was not there is a directory. *)
Theorem startup_only_adds_directories (E : env) (src_img : string) (w : world) :
  (∀ p x, fs w !! p = Some x → fs (prepare E src_img w).2 !! p = Some x)
  ∧ (∀ p x, fs (prepare E src_img w).2 !! p = Some x →
       fs w !! p = Some x ∨ x = Dir).
Proof.
  destruct (prepare_adds E src_img w) as [Hkept Hnew].
  split; [exact Hkept | exact Hnew].
Qed.

(** *** The source image *)

Lemma join_longer (d n : string) :
  startswith_sep n = false → n ≠ "" →
  (String.length d < String.length (join d n))%nat.
Proof.
  intros Hn Hne. unfold join. rewrite Hn.
  destruct (_ || _); rewrite !length_append; destruct n; simpl; try done; lia.
Qed.

(** No artifact path is the path of the source image. *)
Lemma source_not_artifact (src_img : string) : src_img ∉ files src_img.
Proof.
  rewrite files_joined. intros (n & Hsrc & Hn)%list_elem_of_fmap.
  pose proof (split_artifact src_img n Hn) as Hsplit.
  rewrite <- Hsrc in Hsplit. unfold split in Hsplit.
  injection Hsplit as Hdir _. fold (dirname src_img) in Hdir.
  pose proof (join_longer (dirname src_img) "tmp" eq_refl ltac:(done)) as Hlen.
  fold (tmp_dir src_img) in Hlen. rewrite <- Hdir in Hlen. lia.
Qed.

(** A regular file that is not an artifact path goes through [main]
    unchanged. *)
Lemma main_keeps_file (E : env) (src_img p : string) :
  p ∉ files src_img → changes_by (keeps_file p) (main E src_img).
Proof.
  intros Hp. unfold main, print. changes_steps.
  - eapply changes_weaken; [| apply generate_compressed_images_writes].
    intros f g Hfg n Hf. by destruct (Hfg p) as [-> | [[? _] _]].
  - intros w n Hf. by rewrite <- (calculate_file_size_keeps E src_img _ w).
  - intros w n Hf. by rewrite <- (calculate_read_times_keeps E src_img _ w).
  - eapply changes_weaken; [| apply remove_directory_deletes].
    intros f g Hfg n Hf.
    destruct (Hfg p) as [-> | [_ [? | ?]]]; [done | done | congruence].
  - intros w n Hf. by rewrite print_results_run.
Qed.

Lemma run_keeps_file (E : env) (src_img p : string) :
  p ∉ files src_img → changes_by (keeps_file p) (run E src_img).
Proof.
  intros Hp. unfold run. changes_steps; [| by apply main_keeps_file].
  eapply changes_weaken; [| apply prepare_adds].
  intros f g [Hfg _] n Hf. by apply Hfg.
Qed.

(** X5. A run never deletes, overwrites or resizes the source image: if
    the path given on the command line names a regular file when the
    script starts, it names the same file, with the same size, when the
    script is over, whatever the engine and the platform did in between. *)
Theorem source_image_untouched (E : env) (argv1 : string) (w : world) (n : N) :
  fs w !! abspath E argv1 = Some (File n) →
  fs (script E argv1 w).2 !! abspath E argv1 = Some (File n).
Proof.
  revert w n.
  change (changes_by (keeps_file (abspath E argv1)) (script E argv1)).
  unfold script. apply run_keeps_file, source_not_artifact.
Qed.

Lemma source_image_untouched_witness :
  fs (script Examples.engine_ok Examples.source Examples.w_fresh).2
    !! abspath Examples.engine_ok Examples.source = Some (File 5000%N).
Proof.
  apply (source_image_untouched Examples.engine_ok Examples.source
           Examples.w_fresh 5000%N).
  by vm_compute.
Defined.

End Frames.


(** ** Stages that succeed *)

Module Outcomes.
Import Path PathFacts Py Os Script Layout Loops Slots Rows Pipeline Encoder.
Import Sizes Teardown Ancestors Frames Examples.
Import Spec.

(** When the encode of a catalog entry returns, its path is a regular
    file. *)
Lemma encode_at_file (E : env) (input_image : string) (i : nat) (file : string)
    (w : world) :
  match encode_at E input_image i file w with
  | (Ok _, w') => is_file (fs w') file
  | (Raise _, _) => True
  end.
Proof.
  unfold encode_at, bind, time, ret. simpl.
  destruct (gdal_Open E input_image w) as [[[]|?] w1]; [| done].
  unfold gdal_Translate, bind, emit, get_fs, put_fs, elapse, raise. simpl.
  destruct (gdal_translate E file input_image (command_at i) (fs w1))
    as [[n dt]|e]; simpl; [| done].
  exists n. apply lookup_insert_eq.
Qed.

Lemma writes_only_keeps_file (allowed : string → Prop)
    (f g : gmap string node) (p : string) :
  writes_only allowed f g → is_file f p → is_file g p.
Proof.
  intros Hfg [n Hp]. destruct (Hfg p) as [Hg | [_ ?]]; [| done].
  exists n. by rewrite Hg.
Qed.

(** After an encoder loop that ends, every catalog path of the list is a
    regular file, and so is every path that was one before. *)
Lemma encode_loop_files (E : env) (src_img input_image : string)
    (xs : list string) (s : six) (w : world) :
  match for_each xs (encode_one E src_img input_image) s w with
  | (Ok _, w') =>
      ∀ p, (p ∈ xs ∧ p ∈ files src_img) ∨ is_file (fs w) p → is_file (fs w') p
  | (Raise _, _) => True
  end.
Proof.
  revert s w. induction xs as [|x xs IH]; intros s w; simpl.
  { intros p [[Hp _] | Hp]; [by apply elem_of_nil in Hp | done]. }
  unfold bind. pose proof (encode_one_writes E src_img input_image x s w) as Hfr.
  pose proof (encode_one_by_slot E src_img input_image x s w) as Hslot.
  destruct (encode_one E src_img input_image x s w) as [[s1|e] w1] eqn:Hone;
    [| done].
  simpl in Hfr. pose proof (IH s1 w1) as Hrest.
  destruct (for_each xs _ s1 w1) as [[s'|e] w']; [| done].
  intros p Hp. apply Hrest.
  destruct (decide (p ∈ xs ∧ p ∈ files src_img)) as [? | Hnot]; [by left |].
  right. destruct Hp as [[Hin Hcat] | Hfile];
    [| by eapply writes_only_keeps_file].
  apply elem_of_cons in Hin as [-> | Hin]; [| exfalso; by apply Hnot].
  apply list_elem_of_lookup in Hcat as [i Hi].
  unfold by_slot in Hslot. rewrite (slot_of_complete _ _ _ Hi) in Hslot.
  unfold bind in Hslot. pose proof (encode_at_file E input_image i x w) as Hfile.
  destruct (encode_at E input_image i x w) as [[c|e] w2]; [| done].
  by injection Hslot as _ <-.
Qed.






(** *** The decoder *)

Lemma read_at_run (E : env) (i : nat) (file : string) (w : world) :
  read_at E i file w =
    match gdal_read E file (fs w) with
    | Ok dt => (Ok (Seconds dt),
                World (fs w) (now w + dt) (trace w ++ [GdalReadAsArray file]))
    | Raise e => (Raise e, logged w [GdalReadAsArray file])
    end.
Proof.
  unfold read_at, read_tif, bind, time, emit, get_fs, elapse, ret, raise, logged.
  simpl. destruct (gdal_read E file (fs w)) as [dt|e]; simpl; [| done].
  do 3 f_equal. lia.
Qed.

(** Decoding a run of paths whose catalog members can all be decoded. *)
Lemma read_prefix (E : env) (src_img : string) (pre : list string)
    (s : six) (w : world) :
  (∀ p, p ∈ pre → p ∈ files src_img → read_ok E (fs w) p) →
  ∃ s' w', for_each pre (by_slot src_img (read_at E)) s w = (Ok s', w')
    ∧ fs w' = fs w
    ∧ trace w' = trace w ++ (GdalReadAsArray <$> inspected src_img pre).
Proof.
  revert s w. induction pre as [|x pre IH]; intros s w Hok; simpl.
  { exists s, w. by rewrite app_nil_r. }
  unfold bind, by_slot at 1, inspected.
  destruct (slot_of src_img x) as [j|] eqn:Hj.
  - apply slot_of_sound in Hj.
    assert (x ∈ files src_img) as Hx by (eapply list_elem_of_lookup_2, Hj).
    destruct (Hok x ltac:(left) Hx) as [dt Hdt].
    unfold bind. rewrite read_at_run, Hdt. simpl.
    destruct (IH (set_slot j (Seconds dt) s)
                (World (fs w) (now w + dt) (trace w ++ [GdalReadAsArray x])))
      as (s' & w' & Hs' & Hfs & Htr).
    { intros p Hp. apply Hok. by right. }
    exists s', w'. rewrite Hs'. split; [done |]. split; [done |].
    rewrite Htr. simpl. rewrite filter_cons_True by done.
    by rewrite <- app_assoc.
  - apply slot_of_None in Hj. simpl.
    destruct (IH s w) as (s' & w' & Hs' & Hfs & Htr).
    { intros p Hp. apply Hok. by right. }
    exists s', w'. unfold ret. rewrite Hs'. by rewrite filter_cons_False.
Qed.

(** X8. The decoder is all or nothing. When every catalog path of the
    list can be read, it returns a row in which each listed catalog path
    has, at its catalog position, the time the engine took to read it,
    having read them in list order. When the read of one of them raises,
    the function's one handler prints the failure and returns [None], and
    the paths after it are not read. *)
Theorem read_row_all_or_nothing (E : env) (src_img : string)
    (in_files : list string) (w : world) :
  ((∀ p, p ∈ in_files → p ∈ files src_img → read_ok E (fs w) p) →
   ∃ l w', calculate_read_times E src_img in_files w = (Ok (Some l), w')
     ∧ trace w' = trace w
                  ++ [Print (Begin "calculate_read_times")]
                  ++ (GdalReadAsArray <$> inspected src_img in_files)
                  ++ [Print (Success "calculate_read_times")]
     ∧ aligned src_img in_files
         (λ file c, ∃ dt, gdal_read E file (fs w) = Ok dt ∧ c = Seconds dt) l)
  ∧ (∀ pre p post e,
       in_files = pre ++ p :: post →
       (∀ p', p' ∈ pre → p' ∈ files src_img → read_ok E (fs w) p') →
       p ∈ files src_img →
       gdal_read E p (fs w) = Raise e →
       ∃ w', calculate_read_times E src_img in_files w = (Ok None, w')
         ∧ trace w' = trace w
                      ++ [Print (Begin "calculate_read_times")]
                      ++ (GdalReadAsArray <$> inspected src_img pre)
                      ++ [GdalReadAsArray p;
                          Print (Fail "calculate_read_times" e)]).
Proof.
  split.
  - intros Hok. rewrite calculate_read_times_stage.
    destruct (stage_by_slot src_img "calculate_read_times" (read_at E)
                (λ w', fs w' = fs w)
                (λ file c, ∃ dt, gdal_read E file (fs w) = Ok dt ∧ c = Seconds dt)
                in_files w) as (r & w' & Hrun & Hr).
    { intros i file w1 Hw1 Hi. rewrite read_at_run, Hw1.
      destruct (gdal_read E file (fs w)) as [dt|e]; [| done].
      split; [done | by exists dt]. }
    { done. }
    rewrite stage_run in Hrun.
    destruct (read_prefix E src_img in_files declared
                (logged w [Print (Begin "calculate_read_times")]) Hok)
      as (s' & w1 & Hs' & _ & Htr).
    rewrite Hs' in Hrun. injection Hrun as <- <-.
    destruct Hr as [Hal _]. exists (listed s'). eexists.
    rewrite stage_run, Hs'. split; [done |]. split; [| done].
    simpl. rewrite Htr. simpl. by rewrite <- !app_assoc.
  - intros pre p post e -> Hpre Hp Hbad.
    rewrite calculate_read_times_stage, stage_run, for_each_app.
    destruct (read_prefix E src_img pre declared
                (logged w [Print (Begin "calculate_read_times")]) Hpre)
      as (s' & w1 & -> & Hfs & Htr).
    simpl. unfold bind, by_slot.
    apply list_elem_of_lookup in Hp as [j Hj].
    rewrite (slot_of_complete _ _ _ Hj). unfold bind.
    rewrite read_at_run, Hfs. simpl. rewrite Hbad.
    eexists. split; [done |]. simpl. rewrite Htr. simpl.
    by rewrite <- !app_assoc.
Qed.

Lemma read_row_all_or_nothing_witness :
  (∃ l w', calculate_read_times engine_ok lone_source (files lone_source)
             w_only_scratch = (Ok (Some l), w')
     ∧ trace w' = trace w_only_scratch
                  ++ [Print (Begin "calculate_read_times")]
                  ++ (GdalReadAsArray <$> inspected lone_source (files lone_source))
                  ++ [Print (Success "calculate_read_times")]
     ∧ aligned lone_source (files lone_source)
         (λ file c, ∃ dt, gdal_read engine_ok file (fs w_only_scratch) = Ok dt
                          ∧ c = Seconds dt) l)
  ∧ ∃ w', calculate_read_times engine_ok source (files source)
            w_packbits_missing = (Ok None, w')
      ∧ trace w' = trace w_packbits_missing
                   ++ [Print (Begin "calculate_read_times")]
                   ++ (GdalReadAsArray <$> inspected source [uncompressed source])
                   ++ [GdalReadAsArray (packbits source);
                       Print (Fail "calculate_read_times"
                                (EngineError
                                   "'NoneType' object has no attribute 'ReadAsArray'"))].
Proof.
  split.
  - apply (proj1 (read_row_all_or_nothing engine_ok lone_source
                    (files lone_source) w_only_scratch)).
    intros p Hp _. revert p Hp. apply list.Forall_forall.
    repeat (apply Forall_cons; split; [by eexists; vm_compute |]).
    apply Forall_nil_2.
  - apply (proj2 (read_row_all_or_nothing engine_ok source
                    (files source) w_packbits_missing)
             [uncompressed source] (packbits source)
             [deflate_1 source; deflate_2 source; lzw_1 source; lzw_2 source]).
    + reflexivity.
    + intros p' ->%list_elem_of_singleton _. eexists. by vm_compute.
    + apply (bool_decide_unpack _). by vm_compute.
    + by vm_compute.
Defined.

(** *** Teardown *)

Lemma delete_all_gone (ps : list string) (f : gmap string node) (p : string) :
  p ∈ ps → delete_all ps f !! p = None.
Proof.
  revert f. induction ps as [|x ps IH]; intros f Hp; simpl.
  { by apply elem_of_nil in Hp. }
  destruct (decide (p ∈ ps)) as [Hin | Hout]; [by apply IH |].
  apply elem_of_cons in Hp as [-> | Hp]; [| done].
  rewrite delete_all_lookup_ne by done. apply lookup_delete_eq.
Qed.

(** Deleting everything and then removing the directory. *)
Lemma remove_directory_succeeds (E : env) (in_files : list string)
    (delete_directory : string) (w : world) :
  NoDup in_files →
  (∀ p, p ∈ in_files → unlink_ok E (fs w) p = true) →
  rmdir_ok E (delete_all in_files (fs w)) delete_directory = true →
  ∃ w' t, remove_directory E in_files delete_directory w = (Ok tt, w')
    ∧ (∀ p, p ∈ in_files → fs w' !! p = None)
    ∧ fs w' !! delete_directory = None
    ∧ trace w' = trace w
                 ++ [Print (Begin "remove_directory")]
                 ++ (Remove <$> in_files)
                 ++ Rmdir delete_directory :: t
                 ++ [Print (Success "remove_directory")].
Proof.
  intros Hnd Hok Hdir.
  rewrite remove_directory_run, remove_prefix by done.
  unfold removedirs, bind, logged. cbn [fs now trace].
  match goal with |- context [rmdir E delete_directory ?w1] =>
    pose proof (rmdir_run E delete_directory w1) as Hrm end.
  cbn [fs now trace] in Hrm. rewrite Hdir in Hrm. rewrite Hrm. clear Hrm.
  destruct (split_again (split delete_directory)) as [head tail].
  match goal with |- context [removedirs_loop E ?fuel head tail ?w2] =>
    destruct (removedirs_loop_returns E fuel head tail w2)
      as (w' & Hrun & Hfs & _);
    pose proof (Order.emits_removedirs_loop E fuel head tail w2) as (t & Ht & _)
  end.
  rewrite Hrun in Ht. simpl in Ht. rewrite Hrun.
  eexists _, t. split; [done |]. simpl. split; [| split].
  - intros p Hp. apply Hfs. simpl.
    destruct (decide (delete_directory = p)) as [-> | Hne];
      [apply lookup_delete_eq |].
    rewrite lookup_delete_ne by done. by apply delete_all_gone.
  - apply Hfs. simpl. apply lookup_delete_eq.
  - rewrite Ht. by rewrite <- !app_assoc.
Qed.

(** X9. When every path of the list can be deleted, teardown deletes
    them all, in list order, and then tries the directory. If the
    directory can be removed once they are gone, none of the paths and
    not the directory exist afterwards and the success is printed. If it
    cannot -- something else is in it, or the platform refuses -- the
    artifacts are gone all the same, the directory and everything else
    stay as they were, and the failure is printed. *)
Theorem teardown_after_deleting_all (E : env) (in_files : list string)
    (delete_directory : string) (w : world) :
  NoDup in_files →
  (∀ p, p ∈ in_files → unlink_ok E (fs w) p = true) →
  (rmdir_ok E (delete_all in_files (fs w)) delete_directory = true →
   ∃ w' t, remove_directory E in_files delete_directory w = (Ok tt, w')
     ∧ (∀ p, p ∈ in_files → fs w' !! p = None)
     ∧ fs w' !! delete_directory = None
     ∧ trace w' = trace w
                  ++ [Print (Begin "remove_directory")]
                  ++ (Remove <$> in_files)
                  ++ Rmdir delete_directory :: t
                  ++ [Print (Success "remove_directory")])
  ∧ (rmdir_ok E (delete_all in_files (fs w)) delete_directory = false →
     ∃ e, remove_directory E in_files delete_directory w =
            (Ok tt,
             World (delete_all in_files (fs w)) (now w)
               (trace w
                ++ [Print (Begin "remove_directory")]
                ++ (Remove <$> in_files)
                ++ [Rmdir delete_directory;
                    Print (Fail "remove_directory" e)]))).
Proof.
  intros Hnd Hok. split; intros Hdir.
  - by apply remove_directory_succeeds.
  - rewrite remove_directory_run, remove_prefix by done.
    unfold removedirs, bind, logged. cbn [fs now trace].
    match goal with |- context [rmdir E delete_directory ?w1] =>
      pose proof (rmdir_run E delete_directory w1) as Hrm end.
    cbn [fs now trace] in Hrm. rewrite Hdir in Hrm.
    destruct Hrm as (e & _ & ->). exists e. unfold logged. simpl.
    by rewrite <- !app_assoc.
Qed.

(** In the example of a leftover, a stray file sits in the scratch
    directory beside the six artifacts. *)
Lemma teardown_after_deleting_all_witness :
  (∃ w' t, remove_directory engine_ok (files lone_source) (tmp_dir lone_source)
             w_only_scratch = (Ok tt, w')
     ∧ (∀ p, p ∈ files lone_source → fs w' !! p = None)
     ∧ fs w' !! tmp_dir lone_source = None
     ∧ trace w' = trace w_only_scratch
                  ++ [Print (Begin "remove_directory")]
                  ++ (Remove <$> files lone_source)
                  ++ Rmdir (tmp_dir lone_source) :: t
                  ++ [Print (Success "remove_directory")])
  ∧ ∃ e, remove_directory engine_ok (files lone_source) (tmp_dir lone_source)
           w_stray_file =
           (Ok tt,
            World (delete_all (files lone_source) (fs w_stray_file))
              (now w_stray_file)
              (trace w_stray_file
               ++ [Print (Begin "remove_directory")]
               ++ (Remove <$> files lone_source)
               ++ [Rmdir (tmp_dir lone_source);
                   Print (Fail "remove_directory" e)])).
Proof.
  split.
  - apply (proj1 (teardown_after_deleting_all engine_ok (files lone_source)
                    (tmp_dir lone_source) w_only_scratch
                    ltac:(apply (bool_decide_unpack _); by vm_compute)
                    ltac:(apply list.Forall_forall;
                          apply (bool_decide_unpack _); by vm_compute))).
    by vm_compute.
  - apply (proj2 (teardown_after_deleting_all engine_ok (files lone_source)
                    (tmp_dir lone_source) w_stray_file
                    ltac:(apply (bool_decide_unpack _); by vm_compute)
                    ltac:(apply list.Forall_forall;
                          apply (bool_decide_unpack _); by vm_compute))).
    by vm_compute.
Defined.

End Outcomes.


(** ** Edge cases of the stages and the verdict of [main] *)

Module Verdict.
Import Path PathFacts Py Os Script Layout Loops Slots Rows Pipeline Order Examples.
Import Spec.

(** A loop over paths none of which is in the catalog does nothing. *)
Lemma for_each_skips (src_img : string) (measure : nat → string → M cell)
    (xs : list string) (s : six) (w : world) :
  (∀ p, p ∈ xs → p ∉ files src_img) →
  for_each xs (by_slot src_img measure) s w = (Ok s, w).
Proof.
  revert s w. induction xs as [|x xs IH]; intros s w Hskip; simpl; [done |].
  unfold bind, by_slot at 1.
  destruct (slot_of src_img x) as [i|] eqn:Hi.
  - apply slot_of_sound in Hi. exfalso. apply (Hskip x); [by left |].
    eapply list_elem_of_lookup_2, Hi.
  - simpl. apply IH. intros p Hp. apply Hskip. by right.
Qed.

(** X10. A stage given a list with no catalog path in it -- the empty
    list, or paths that are not among the six -- calls neither the
    engine nor the file system: it prints its BEGIN and its SUCCESS and
    returns a row of six empty strings. *)
Theorem nothing_to_measure (E : env) (src_img : string)
    (in_files : list string) (input_image : string) (w : world) :
  (∀ p, p ∈ in_files → p ∉ files src_img) →
  generate_compressed_images E src_img in_files input_image w =
    (Ok (Some (replicate 6 sentinel)),
     logged w [Print (Begin "generate_compressed_images");
               Print (Success "generate_compressed_images")])
  ∧ calculate_file_size E src_img in_files w =
      (Ok (Some (replicate 6 sentinel)),
       logged w [Print (Begin "calculate_file_size");
                 Print (Success "calculate_file_size")])
  ∧ calculate_read_times E src_img in_files w =
      (Ok (Some (replicate 6 sentinel)),
       logged w [Print (Begin "calculate_read_times");
                 Print (Success "calculate_read_times")]).
Proof.
  intros Hskip. split; [| split].
  - rewrite generate_compressed_images_stage, stage_run, for_each_skips by done.
    by rewrite logged_logged.
  - rewrite calculate_file_size_stage, stage_run, for_each_skips by done.
    by rewrite logged_logged.
  - rewrite calculate_read_times_stage, stage_run, for_each_skips by done.
    by rewrite logged_logged.
Qed.

Lemma nothing_to_measure_witness :
  generate_compressed_images engine_ok source ["/data/other.tif"] source w_prepared =
    (Ok (Some (replicate 6 sentinel)),
     logged w_prepared [Print (Begin "generate_compressed_images");
                        Print (Success "generate_compressed_images")])
  ∧ calculate_file_size engine_ok source ["/data/other.tif"] w_prepared =
      (Ok (Some (replicate 6 sentinel)),
       logged w_prepared [Print (Begin "calculate_file_size");
                          Print (Success "calculate_file_size")])
  ∧ calculate_read_times engine_ok source ["/data/other.tif"] w_prepared =
      (Ok (Some (replicate 6 sentinel)),
       logged w_prepared [Print (Begin "calculate_read_times");
                          Print (Success "calculate_read_times")]).
Proof.
  apply (nothing_to_measure engine_ok source ["/data/other.tif"] source
           w_prepared).
  intros p ->%list_elem_of_singleton.
  apply (bool_decide_unpack _). by vm_compute.
Defined.



End Verdict.


(** ** A run in which nothing fails *)

Module CleanRun.
Import Path PathFacts Py Os Script Layout Startup Loops Slots Rows Pipeline.
Import Encoder Sizes Teardown Ancestors Frames Outcomes Examples.
Import Spec.

Lemma artifact_under_tmp_dir (src_img p : string) :
  p ∈ files src_img → dirname p = tmp_dir src_img ∧ p ≠ tmp_dir src_img.
Proof.
  rewrite files_joined. intros (n & -> & Hn)%list_elem_of_fmap.
  pose proof (split_artifact src_img n Hn) as Hsplit.
  unfold split in Hsplit. injection Hsplit as Hdir _.
  split; [exact Hdir |]. intros Heq.
  pose proof artifact_names_plain as Hall. rewrite list.Forall_forall in Hall.
  destruct (Hall n Hn) as (Hsep & Hne & _).
  assert (startswith_sep n = false) as Hstart.
  { destruct n; [done |]. simpl in *. by apply orb_false_iff in Hsep as [-> _]. }
  pose proof (join_longer (tmp_dir src_img) n Hstart Hne) as Hlen.
  rewrite Heq in Hlen. lia.
Qed.

Lemma tmp_dir_not_parent (src_img : string) : dirname src_img ≠ tmp_dir src_img.
Proof.
  intros Heq.
  pose proof (join_longer (dirname src_img) "tmp" eq_refl ltac:(done)) as Hlen.
  fold (tmp_dir src_img) in Hlen. rewrite <- Heq in Hlen. lia.
Qed.

Lemma tmp_dir_not_root (src_img : string) : is_root (tmp_dir src_img) = false.
Proof.
  unfold is_root. apply bool_decide_eq_false_2. intros [Hne Hstrip].
  rewrite tmp_dir_shape in Hstrip. done.
Qed.

(** Once the six artifacts are deleted, the scratch directory that
    start-up created is empty and can be removed. *)
Lemma scratch_removable (E : env) (src_img : string) (f0 f : gmap string node) :
  map_Forall (λ k _, dirname k ≠ tmp_dir src_img) f0 →
  agrees_outside (files src_img) f (prepared src_img f0) →
  os_denied E SysRmdir (tmp_dir src_img) = false →
  rmdir_ok E (delete_all (files src_img) f) (tmp_dir src_img) = true.
Proof.
  intros Hunder Hagree Hden.
  assert (tmp_dir src_img ∉ files src_img) as Htmp.
  { intros Hin. by destruct (artifact_under_tmp_dir _ _ Hin). }
  unfold rmdir_ok. rewrite Hden. cbn [negb andb].
  rewrite delete_all_lookup_ne, Hagree by done.
  unfold prepared. rewrite lookup_insert_eq, tmp_dir_not_root. cbn [negb andb].
  unfold is_empty_dir. apply bool_decide_eq_true_2.
  intros k x Hk.
  destruct (decide (k ∈ files src_img)) as [Hin | Hout].
  { by rewrite delete_all_gone in Hk. }
  rewrite delete_all_lookup_ne, Hagree in Hk by done.
  unfold prepared in Hk.
  destruct (decide (tmp_dir src_img = k)) as [<- | Hne].
  - pose proof (split_tmp_dir src_img) as Hs. unfold split in Hs.
    injection Hs as Hd _. fold (dirname (tmp_dir src_img)) in Hd.
    rewrite Hd. apply tmp_dir_not_parent.
  - rewrite lookup_insert_ne in Hk by done. by apply (Hunder k x).
Qed.

(** X12. A run in which nothing fails produces the whole table and
    leaves nothing behind. If the scratch directory is not there yet, the
    directory of the source is, nothing lies under the scratch path, the
    platform refuses nothing at the scratch directory and the artifacts,
    and the engine encodes and then reads every variant, then the script
    returns, the table is built from three rows of six cells, neither the
    scratch directory nor any artifact exists at the end, and every
    regular file that was there at the start is still there unchanged. *)
Theorem clean_run (E : env) (argv1 : string) (w : world) :
  let src_img := abspath E argv1 in
  fs w !! tmp_dir src_img = None →
  fs w !! dirname src_img = Some Dir →
  map_Forall (λ k _, dirname k ≠ tmp_dir src_img) (fs w) →
  (∀ p, p = tmp_dir src_img ∨ p ∈ files src_img → permitted E p) →
  (∀ i p f, files src_img !! i = Some p →
     agrees_outside (files src_img) f (prepared src_img (fs w)) →
     encode_returns E src_img p (command_at i) f) →
  (∀ p f, p ∈ files src_img →
     agrees_outside (files src_img) f (prepared src_img (fs w)) →
     all_written src_img f →
     read_ok E f p) →
  ∃ sizes writes reads w',
    script E argv1 w = (Ok tt, w')
    ∧ length sizes = 6 ∧ length writes = 6 ∧ length reads = 6
    ∧ DataFrame [Some sizes; Some writes; Some reads] rows columns ∈ trace w'
    ∧ fs w' !! tmp_dir src_img = None
    ∧ (∀ p, p ∈ files src_img → fs w' !! p = None)
    ∧ (∀ p n, fs w !! p = Some (File n) → fs w' !! p = Some (File n)).
Proof.
  intros src_img Habsent Hparent Hunder Hperm Henc Hread.
  assert (prepare E src_img w =
            (Ok tt, World (prepared src_img (fs w)) (now w)
                      (trace w ++ [Mkdir (tmp_dir src_img)]))) as Hprep.
  { unfold prepare. rewrite exists_bind.
    rewrite bool_decide_eq_false_2 by (rewrite Habsent; by intros [? ?]).
    cbn [negb]. apply makedirs_tmp_dir_under_existing; [| done | done].
    apply Hperm. by left. }
  set (w1 := World (prepared src_img (fs w)) (now w)
               (trace w ++ [Mkdir (tmp_dir src_img)])) in *.
  destruct (main_run E src_img w1)
    as (writes & sizes & reads & wa & wb & wc & wd & Hg & Hs & Hr & Ht & Hm).
  (* the encoder *)
  rewrite generate_compressed_images_stage, stage_run in Hg.
  match type of Hg with context [for_each _ _ _ ?w0] =>
    destruct (encode_prefix E src_img (files src_img) declared w0)
      as (s1 & wa0 & new & Hrun & _ & _ & Hout);
      [intros i p f _ Hi Hf; by apply Henc | done |];
    pose proof (encode_loop_files E src_img src_img (files src_img) declared w0)
      as Hfiles;
    rewrite (for_each_ext _ _ _ _ _ (encode_one_by_slot E src_img src_img)),
      Hrun in Hfiles
  end.
  rewrite Hrun in Hg. injection Hg as <- <-.
  assert (agrees_outside (files src_img) (fs wa0) (prepared src_img (fs w)))
    as Hagree by (intros p Hp; by apply Hout).
  assert (all_written src_img (fs wa0)) as Hwritten
    by (intros p Hp; apply Hfiles; by left).
  clear Hrun Hout Hfiles new.
  (* the size inspector *)
  rewrite calculate_file_size_stage, stage_run in Hs.
  match type of Hs with context [for_each _ _ _ ?w0] =>
    destruct (size_prefix E src_img (files src_img) declared w0) as [s2 Hs2]
  end.
  { intros p Hp _. unfold stat_ok, logged. cbn [fs].
    rewrite (Hperm p (or_intror Hp) Stat). destruct (Hwritten p Hp) as [n Hn].
    rewrite Hn. cbn [negb andb]. apply bool_decide_eq_true_2. eauto. }
  rewrite Hs2 in Hs. injection Hs as <- <-.
  (* the decoder *)
  rewrite calculate_read_times_stage, stage_run in Hr.
  match type of Hr with context [for_each _ _ _ ?w0] =>
    destruct (read_prefix E src_img (files src_img) declared w0)
      as (s3 & wc0 & Hs3 & Hfs3 & _)
  end.
  { intros p Hp _. unfold logged. cbn [fs]. by apply Hread. }
  rewrite Hs3 in Hr. injection Hr as <- <-.
  unfold logged in Hfs3. cbn [fs] in Hfs3.
  (* teardown *)
  destruct (remove_directory_succeeds E (files src_img) (tmp_dir src_img)
              (logged wc0 [Print (Success "calculate_read_times")]))
    as (wd' & t & Hrm & Hgone & Hdir & _).
  { apply files_NoDup. }
  { intros p Hp. unfold unlink_ok, logged. cbn [fs]. rewrite Hfs3.
    rewrite (Hperm p (or_intror Hp) Unlink). destruct (Hwritten p Hp) as [n ->].
    done. }
  { unfold logged. cbn [fs]. rewrite Hfs3.
    apply (scratch_removable E src_img (fs w)); [done | done |].
    apply Hperm. by left. }
  rewrite Hrm in Ht. injection Ht as <-.
  (* the whole run *)
  exists (listed s2), (listed s1), (listed s3). eexists.
  split; [| split; [done | split; [done | split; [done |]]]].
  { unfold script, run, bind. fold src_img. rewrite Hprep. exact Hm. }
  cbn [fs trace logged].
  split; [| split; [exact Hdir | split; [exact Hgone |]]].
  - apply elem_of_app. right. apply elem_of_app. left.
    unfold report_events. apply elem_of_app. left.
    apply elem_of_cons. right. apply elem_of_cons. by left.
  - intros p n Hp.
    assert (p ∉ files src_img) as Hnot.
    { intros Hin. destruct (artifact_under_tmp_dir _ _ Hin) as [Hd _].
      by apply (Hunder p (File n) Hp). }
    pose proof (run_keeps_file E src_img p Hnot w n Hp) as Hkept.
    unfold run, bind in Hkept. rewrite Hprep, Hm in Hkept. exact Hkept.
Qed.

Lemma engine_ok_accepts_fresh (i : nat) (p : string) (f : gmap string node) :
  files source !! i = Some p →
  agrees_outside (files source) f (prepared source fs_fresh) →
  encode_returns engine_ok source p (command_at i) f.
Proof.
  intros _ Hf. split; [done |]. exists 1234%N, 5%Z. simpl.
  unfold translate_existing. rewrite Hf; [by vm_compute |].
  apply source_not_artifact.
Qed.

Lemma engine_ok_reads (p : string) (f : gmap string node) :
  p ∈ files source →
  agrees_outside (files source) f (prepared source fs_fresh) →
  all_written source f →
  read_ok engine_ok f p.
Proof.
  intros Hp _ Hall. destruct (Hall p Hp) as [n Hn]. exists 3%Z.
  simpl. unfold read_existing. by rewrite Hn.
Qed.

Lemma clean_run_witness :
  ∃ sizes writes reads w',
    script engine_ok source w_fresh = (Ok tt, w')
    ∧ length sizes = 6 ∧ length writes = 6 ∧ length reads = 6
    ∧ DataFrame [Some sizes; Some writes; Some reads] rows columns ∈ trace w'
    ∧ fs w' !! tmp_dir source = None
    ∧ (∀ p, p ∈ files source → fs w' !! p = None)
    ∧ (∀ p n, fs w_fresh !! p = Some (File n) → fs w' !! p = Some (File n)).
Proof.
  apply (clean_run engine_ok source w_fresh).
  - by vm_compute.
  - by vm_compute.
  - apply (bool_decide_unpack _). by vm_compute.
  - intros p _ call. reflexivity.
  - exact engine_ok_accepts_fresh.
  - exact engine_ok_reads.
Defined.

(** X13. The paths the module-level code computes never collide: the six
    artifact paths are pairwise different, none of them is the path of
    the source image, and none is the scratch directory itself. So no
    encode overwrites another variant's artifact or the source. *)
Theorem artifact_paths_do_not_collide (E : env) (argv1 : string) :
  let src_img := abspath E argv1 in
  NoDup (files src_img)
  ∧ (src_img ∉ files src_img)
  ∧ (tmp_dir src_img ∉ files src_img)
  ∧ ∀ p, p ∈ files src_img → dirname p = tmp_dir src_img.
Proof.
  intros src_img. split; [apply files_NoDup |].
  split; [apply source_not_artifact |]. split.
  - intros Hin. by destruct (artifact_under_tmp_dir _ _ Hin).
  - intros p Hp. by destruct (artifact_under_tmp_dir _ _ Hp).
Qed.

(** X14. Start-up creates the directory of the source too when it is
    missing: [os.makedirs] makes the parent before the scratch directory.
    A path typed with a directory that does not exist leaves that
    directory and [tmp] inside it on disk. *)
Theorem startup_creates_missing_parent (E : env) (src_img : string)
    (above name : string) (w : world) :
  split (dirname src_img) = (above, name) →
  above ≠ "" → name ≠ "" →
  fs w !! above = Some Dir →
  fs w !! dirname src_img = None →
  fs w !! tmp_dir src_img = None →
  os_denied E SysMkdir (dirname src_img) = false →
  os_denied E SysMkdir (tmp_dir src_img) = false →
  prepare E src_img w =
    (Ok tt,
     World (<[tmp_dir src_img := Dir]> (<[dirname src_img := Dir]> (fs w)))
       (now w)
       (trace w ++ [Mkdir (dirname src_img); Mkdir (tmp_dir src_img)])).
Proof.
  intros Hsplit Habove Hname Hdir Hparent Habsent Hden1 Hden2.
  assert (dirname src_img ≠ "") as Hne.
  { intros Heq. rewrite Heq in Hsplit. by injection Hsplit as <- <-. }
  assert (dirname (dirname src_img) = above) as Hup.
  { unfold split in Hsplit. by injection Hsplit. }
  assert (∀ fuel, makedirs_rec E fuel (dirname src_img) w =
    (Ok tt, World (<[dirname src_img := Dir]> (fs w)) (now w)
              (trace w ++ [Mkdir (dirname src_img)]))) as Hrec.
  { intros fuel.
    assert (makedirs_rec E fuel (dirname src_img) w
            = mkdir E (dirname src_img) w) as ->.
    { destruct fuel; simpl; rewrite Hsplit; unfold split_again;
        rewrite (bool_decide_eq_false_2 (name = "")) by done;
        cbn [fst snd]; rewrite exists_bind;
        rewrite (bool_decide_eq_true_2 (is_Some _)) by (rewrite Hdir; eauto);
        cbn [negb]; by rewrite andb_false_r. }
    apply mkdir_under_existing; [done | done | by rewrite Hup]. }
  unfold prepare. rewrite exists_bind.
  rewrite bool_decide_eq_false_2 by (rewrite Habsent; by intros [? ?]).
  cbn [negb]. unfold makedirs.
  destruct (String.length (tmp_dir src_img)) as [|fuel] eqn:Hlen.
  { exfalso. pose proof (split_tmp_dir src_img) as Hs.
    destruct (tmp_dir src_img); [by injection Hs | done]. }
  simpl. rewrite split_tmp_dir. unfold split_again.
  rewrite (bool_decide_eq_false_2 ("tmp" = "")) by done.
  cbn [fst snd]. rewrite exists_bind.
  rewrite (bool_decide_eq_true_2 (dirname src_img ≠ "")) by done.
  rewrite (bool_decide_eq_true_2 ("tmp" ≠ "")) by done.
  rewrite (bool_decide_eq_false_2 (is_Some _))
    by (rewrite Hparent; by intros [? ?]).
  cbn [negb andb]. unfold bind, try_except. rewrite Hrec.
  rewrite (bool_decide_eq_false_2 ("tmp" = ".")) by done.
  rewrite mkdir_under_existing.
  - cbn [fs now trace]. by rewrite <- app_assoc.
  - done.
  - cbn [fs]. rewrite lookup_insert_ne; [done |]. apply tmp_dir_not_parent.
  - cbn [fs].
    pose proof (split_tmp_dir src_img) as Hs. unfold split in Hs.
    injection Hs as Hd _. fold (dirname (tmp_dir src_img)) in Hd.
    rewrite Hd. apply lookup_insert_eq.
Qed.

Lemma startup_creates_missing_parent_witness :
  prepare engine_ok "/data/new/img.tif" w_no_source =
    (Ok tt,
     World (<[tmp_dir "/data/new/img.tif" := Dir]>
              (<[dirname "/data/new/img.tif" := Dir]> (fs w_no_source)))
       (now w_no_source)
       (trace w_no_source
        ++ [Mkdir (dirname "/data/new/img.tif");
            Mkdir (tmp_dir "/data/new/img.tif")])).
Proof.
  apply (startup_creates_missing_parent engine_ok "/data/new/img.tif"
           "/data" "new" w_no_source); by vm_compute.
Defined.

End CleanRun.
